(** * cTrader FIX client: codec, validator, framer and session counter

    A shallow embedding of the Go package [ctrader] (messages.go,
    protocol.go, client.go) together with the properties its specification
    states about it.

    Conventions of the embedding.
    - A Go [string] or [[]byte] is a [list ascii]: one [ascii] per byte.
    - A Go [int] is a [Z].  Lengths, indices and byte sums stay far below
      2^63 (a Go string never holds 2^55 bytes), so they are computed
      without wrap-around; the send sequence counter can be set to any
      [int] by [ChangeMessageSequenceNumber], so its increment wraps
      ([wrap64]).
    - A Go [float64] is a [spec_float], the IEEE 754 datum of the Standard
      Library: sign, mantissa and exponent, the two zeros, the infinities
      and NaN.
    - [time.Now()] is an input of the functions that read the clock.
    - [map[int][]string] is a [gmap Z (list (list ascii))]. *)

From Stdlib Require Import ZArith List Ascii String DecimalString DecimalPos SpecFloat Lia.
From stdpp Require Import base list gmap.

Local Open Scope Z_scope.

(** ** Byte strings and the Go library functions the package calls *)

(** The text of a Go [error]. *)
Abbreviation error := (list ascii).

Abbreviation bytes := (list ascii).
Abbreviation lit s := (list_ascii_of_string s).

Definition SOH : ascii := "001"%char.

Definition byteVal (b : ascii) : Z := Z.of_nat (nat_of_ascii b).

Definition len (s : bytes) : Z := Z.of_nat (length s).

(** [s[lo:hi]] and [s[lo:]], [s[:hi]]. *)
Definition slice (s : bytes) (lo hi : Z) : bytes :=
  take (Z.to_nat (hi - lo)) (drop (Z.to_nat lo) s).
Definition sliceFrom (s : bytes) (lo : Z) : bytes := drop (Z.to_nat lo) s.
Definition sliceTo (s : bytes) (hi : Z) : bytes := take (Z.to_nat hi) s.

(** [strings.Join] *)
Fixpoint Join (elems : list bytes) (sep : bytes) : bytes :=
  match elems with
  | [] => []
  | [x] => x
  | x :: rest => x ++ sep ++ Join rest sep
  end.

(** [strings.HasPrefix] *)
Fixpoint HasPrefix (s prefix : bytes) {struct prefix} : bool :=
  match prefix, s with
  | [], _ => true
  | _ :: _, [] => false
  | p :: prefix', c :: s' => if Ascii.eqb c p then HasPrefix s' prefix' else false
  end.

(** [strings.HasSuffix] *)
Definition HasSuffix (s suffix : bytes) : bool :=
  (length suffix <=? length s)%nat
  && bool_decide (drop (length s - length suffix) s = suffix).

(** [strings.Index]: the first [i] with [s[i:]] starting with [substr],
    or [-1]. *)
Fixpoint IndexFrom (s substr : bytes) (i : Z) : Z :=
  if HasPrefix s substr then i
  else match s with
       | [] => -1
       | _ :: s' => IndexFrom s' substr (i + 1)
       end.
Definition Index (s substr : bytes) : Z := IndexFrom s substr 0.

(** [strings.LastIndex]: the last such [i], or [-1]. *)
Fixpoint LastIndex (s substr : bytes) : Z :=
  match s with
  | [] => match substr with [] => 0 | _ => -1 end
  | _ :: s' =>
      let r := LastIndex s' substr in
      if 0 <=? r then r + 1
      else if HasPrefix s substr then 0 else -1
  end.

(** [strings.Split(s, sep)]: cut at each occurrence of [sep] found by
    [Index], left to right.  Every round removes at least one byte, so
    [length s] rounds are never exhausted before [Index] fails.  For an empty
    [sep] Go cuts after each UTF-8 sequence; that is after each byte for
    ASCII text. *)
Fixpoint genSplit (rounds : nat) (s sep : bytes) : list bytes :=
  match rounds with
  | O => [s]
  | S rounds' =>
      let m := Index s sep in
      if m <? 0 then [s]
      else sliceTo s m :: genSplit rounds' (sliceFrom s (m + len sep)) sep
  end.

Definition Split (s sep : bytes) : list bytes :=
  match sep with
  | [] => map (fun c => [c]) s
  | _ => genSplit (length s) s sep
  end.

(** [fmt.Sprintf("%d", z)] *)
Definition itoa (z : Z) : bytes := lit (NilZero.string_of_int (Z.to_int z)).

Definition utoa (n : N) : bytes := lit (NilZero.string_of_uint (N.to_uint n)).

(** Digits of [n] left-padded with zeros to [width] characters. *)
Definition zeroPad (width : nat) (n : N) : bytes :=
  let ds := utoa n in repeat "0"%char (width - length ds) ++ ds.

(** [fmt.Sprintf("%03d", z)]: the sign, when there is one, counts in the
    width. *)
Definition fmt03d (z : Z) : bytes :=
  if z <? 0 then "-"%char :: zeroPad 2 (Z.abs_N z) else zeroPad 3 (Z.abs_N z).

(** [strconv.Atoi]: optional sign, then one or more decimal digits, the
    value within the range of [int]. *)
Definition digitVal (c : ascii) : option Z :=
  let n := byteVal c in
  if (48 <=? n) && (n <=? 57) then Some (n - 48) else None.

Fixpoint parseDigits (acc : Z) (s : bytes) : option Z :=
  match s with
  | [] => Some acc
  | c :: s' =>
      match digitVal c with
      | Some d => parseDigits (acc * 10 + d) s'
      | None => None
      end
  end.

Definition Atoi (s : bytes) : option Z :=
  let '(neg, ds) :=
    match s with
    | c :: r => if Ascii.eqb c "+" then (false, r)
                else if Ascii.eqb c "-" then (true, r) else (false, s)
    | [] => (false, s)
    end in
  match ds with
  | [] => None
  | _ =>
      match parseDigits 0 ds with
      | Some n =>
          let v := if neg : bool then - n else n in
          if (- 2 ^ 63 <=? v) && (v <? 2 ^ 63) then Some v else None
      | None => None
      end
  end.

(** The increment of a Go [int] (64 bits). *)
Definition wrap64 (z : Z) : Z := (z + 2 ^ 63) mod 2 ^ 64 - 2 ^ 63.

(** ** [float64] and the verbs [%.2f], [%.5f] *)

Abbreviation float64 := spec_float.

(** [x != 0] on [float64]: false on both zeros, true on NaN. *)
Definition f64_nonzero (x : float64) : bool :=
  match x with
  | S754_zero _ => false
  | _ => true
  end.

(** The integer nearest to [m * 2^e * 10^prec], ties to even: Go prints the
    exact decimal expansion of the binary value, rounded that way. *)
Definition roundScaled (prec : nat) (m : positive) (e : Z) : N :=
  let num := (Z.pos m * 10 ^ Z.of_nat prec)%Z in
  if 0 <=? e then Z.to_N (num * 2 ^ e)
  else
    let den := 2 ^ (- e) in
    let q := num / den in
    let r := num mod den in
    Z.to_N (if (den <? 2 * r) || ((den =? 2 * r) && Z.odd q) then q + 1 else q).

Definition fixedDigits (prec : nat) (q : N) : bytes :=
  let p := (10 ^ N.of_nat prec)%N in
  utoa (q / p)%N ++ "."%char :: zeroPad prec (q mod p)%N.

Definition signBytes (s : bool) : bytes := if s then ["-"%char] else [].

(** [fmt.Sprintf("%.<prec>f", x)] for [prec > 0]. *)
Definition fmtFixed (prec : nat) (x : float64) : bytes :=
  match x with
  | S754_nan => lit "NaN"
  | S754_infinity s => if s then lit "-Inf" else lit "+Inf"
  | S754_zero s => signBytes s ++ fixedDigits prec 0
  | S754_finite s m e => signBytes s ++ fixedDigits prec (roundScaled prec m e)
  end.

(** ** [time.Time] in UTC and the two layouts the package formats with *)

Record Time := {
  year : N; month : N; day : N;
  hour : N; minute : N; second : N; nanosecond : N
}.

(** [t.Format("20060102-15:04:05")] *)
Definition formatSeconds (t : Time) : bytes :=
  zeroPad 4 (year t) ++ zeroPad 2 (month t) ++ zeroPad 2 (day t)
  ++ "-"%char :: zeroPad 2 (hour t)
  ++ ":"%char :: zeroPad 2 (minute t)
  ++ ":"%char :: zeroPad 2 (second t).

(** [t.Format("20060102-15:04:05.000")] *)
Definition formatMillis (t : Time) : bytes :=
  formatSeconds t ++ "."%char :: zeroPad 3 (nanosecond t / 1000000)%N.

(** ** messages.go: configuration and request messages *)

Record Config := {
  BeginString : bytes;
  SenderCompID : bytes;
  TargetCompID : bytes;
  TargetSubID : bytes;
  SenderSubID : bytes;
  Username : bytes;
  Password : bytes;
  HeartBeat : Z
}.

Record RequestMessage := {
  messageType : bytes;
  config : Config;
  rm_delimiter : bytes
}.

Definition NewRequestMessage (messageType : bytes) (config : Config) : RequestMessage :=
  {| messageType := messageType; config := config; rm_delimiter := [SOH] |}.

(** The fields each message struct adds to the [*RequestMessage] it embeds. *)
Inductive Variant :=
| LogonRequest (EncryptionScheme : Z) (ResetSeqNum : bool)
| Heartbeat (TestReqID : bytes)
| TestRequest (TestReqID : bytes)
| LogoutRequest
| OrderMsg (ClOrdID Symbol Side : bytes) (OrderQty : float64)
           (OrdType : bytes) (Price : float64)
| OrderCancelRequest (OrigClOrdID OrderID ClOrdID : bytes)
| MarketDataRequest (MDReqID SubscriptionRequestType : bytes)
                    (MarketDepth NoMDEntryTypes : Z) (MDEntryType : bytes)
                    (NoRelatedSym : Z) (Symbol : bytes)
| SecurityListRequest (SecurityReqID SecurityListRequestType Symbol : bytes)
| RequestForPositions (PosReqID PosMaintRptID : bytes).

(** A message struct: the embedded request message and its own fields. *)
Record Message := {
  base : RequestMessage;
  variant : Variant
}.

Definition NewLogonRequest (config : Config) : Message :=
  {| base := NewRequestMessage (lit "A") config; variant := LogonRequest 0 false |}.
Definition NewHeartbeat (config : Config) : Message :=
  {| base := NewRequestMessage (lit "0") config; variant := Heartbeat [] |}.
Definition NewTestRequest (config : Config) : Message :=
  {| base := NewRequestMessage (lit "1") config; variant := TestRequest [] |}.
Definition NewLogoutRequest (config : Config) : Message :=
  {| base := NewRequestMessage (lit "5") config; variant := LogoutRequest |}.
Definition NewOrderMsg (config : Config) : Message :=
  {| base := NewRequestMessage (lit "D") config;
     variant := OrderMsg [] [] [] (S754_zero false) [] (S754_zero false) |}.
Definition NewOrderCancelRequest (config : Config) : Message :=
  {| base := NewRequestMessage (lit "F") config; variant := OrderCancelRequest [] [] [] |}.
Definition NewMarketDataRequest (config : Config) : Message :=
  {| base := NewRequestMessage (lit "V") config;
     variant := MarketDataRequest [] [] 0 0 [] 0 [] |}.
Definition NewSecurityListRequest (config : Config) : Message :=
  {| base := NewRequestMessage (lit "x") config; variant := SecurityListRequest [] [] [] |}.
Definition NewRequestForPositions (config : Config) : Message :=
  {| base := NewRequestMessage (lit "AN") config; variant := RequestForPositions [] [] |}.

(** The slice [fields] of [getHeader], before it is joined. *)
Definition headerFields (rm : RequestMessage) (sequenceNumber : Z) (now : Time)
  : list bytes :=
  [ lit "35=" ++ messageType rm;
    lit "49=" ++ SenderCompID (config rm);
    lit "56=" ++ TargetCompID (config rm);
    lit "57=" ++ TargetSubID (config rm);
    lit "50=" ++ SenderSubID (config rm);
    lit "34=" ++ itoa sequenceNumber;
    lit "52=" ++ formatMillis now ].

Definition getHeader (rm : RequestMessage) (lenBody sequenceNumber : Z) (now : Time)
  : bytes :=
  let fieldsJoined := Join (headerFields rm sequenceNumber now) (rm_delimiter rm) in
  lit "8=" ++ BeginString (config rm) ++ rm_delimiter rm
  ++ lit "9=" ++ itoa (lenBody + len fieldsJoined + 2) ++ rm_delimiter rm
  ++ fieldsJoined.

Definition getTrailer (headerAndBody : bytes) : bytes :=
  let checksum := fold_left (fun checksum b => checksum + byteVal b) headerAndBody 0 in
  let checksum := Z.rem checksum 256 in
  lit "10=" ++ fmt03d checksum.

(** The slice [fields] of each [GetBody] that builds one; [now] is the
    clock that [OrderMsg.GetBody] reads. *)
Definition bodyFields (m : Message) (now : Time) : list bytes :=
  let cfg := config (base m) in
  match variant m with
  | LogonRequest EncryptionScheme ResetSeqNum =>
      [ lit "98=" ++ itoa EncryptionScheme;
        lit "108=" ++ itoa (HeartBeat cfg) ]
      ++ (if ResetSeqNum then [ lit "141=Y" ] else [])
      ++ [ lit "553=" ++ Username cfg;
           lit "554=" ++ Password cfg ]
  | OrderMsg ClOrdID Symbol Side OrderQty OrdType Price =>
      [ lit "11=" ++ ClOrdID;
        lit "55=" ++ Symbol;
        lit "54=" ++ Side;
        lit "60=" ++ formatSeconds now;
        lit "38=" ++ fmtFixed 2 OrderQty;
        lit "40=" ++ OrdType ]
      ++ (if f64_nonzero Price then [ lit "44=" ++ fmtFixed 5 Price ] else [])
  | OrderCancelRequest OrigClOrdID OrderID ClOrdID =>
      [ lit "41=" ++ OrigClOrdID ]
      ++ (if bool_decide (OrderID ≠ []) then [ lit "37=" ++ OrderID ] else [])
      ++ [ lit "11=" ++ ClOrdID ]
  | MarketDataRequest MDReqID SubscriptionRequestType MarketDepth NoMDEntryTypes
                      MDEntryType NoRelatedSym Symbol =>
      [ lit "262=" ++ MDReqID;
        lit "263=" ++ SubscriptionRequestType;
        lit "264=" ++ itoa MarketDepth;
        lit "267=" ++ itoa NoMDEntryTypes;
        lit "269=" ++ MDEntryType;
        lit "146=" ++ itoa NoRelatedSym;
        lit "55=" ++ Symbol ]
  | SecurityListRequest SecurityReqID SecurityListRequestType Symbol =>
      [ lit "320=" ++ SecurityReqID;
        lit "559=" ++ SecurityListRequestType ]
      ++ (if bool_decide (Symbol ≠ []) then [ lit "55=" ++ Symbol ] else [])
  | RequestForPositions PosReqID PosMaintRptID =>
      [ lit "710=" ++ PosReqID ]
      ++ (if bool_decide (PosMaintRptID ≠ []) then [ lit "721=" ++ PosMaintRptID ] else [])
  | Heartbeat _ | TestRequest _ | LogoutRequest => []
  end.

(** [GetBody]: three variants return their text directly, the others join
    their [fields] with the delimiter. *)
Definition GetBody (m : Message) (now : Time) : bytes :=
  match variant m with
  | Heartbeat TestReqID =>
      if bool_decide (TestReqID = []) then [] else lit "112=" ++ TestReqID
  | TestRequest TestReqID => lit "112=" ++ TestReqID
  | LogoutRequest => []
  | _ => Join (bodyFields m now) (rm_delimiter (base m))
  end.

(** [GetMessage]: the source repeats this body, unchanged, for each of the
    nine message structs.  [nowBody] is the clock at the call of [GetBody],
    [nowHeader] at the call of [getHeader]. *)
Definition headerAndBodyOf (m : Message) (sequenceNumber : Z) (nowBody nowHeader : Time)
  : bytes :=
  let rm := base m in
  let body := GetBody m nowBody in
  if bool_decide (body ≠ []) then
    getHeader rm (len body) sequenceNumber nowHeader
    ++ rm_delimiter rm ++ body ++ rm_delimiter rm
  else
    getHeader rm 0 sequenceNumber nowHeader ++ rm_delimiter rm.

Definition GetMessage (m : Message) (sequenceNumber : Z) (nowBody nowHeader : Time)
  : bytes :=
  let headerAndBody := headerAndBodyOf m sequenceNumber nowBody nowHeader in
  let trailer := getTrailer headerAndBody in
  headerAndBody ++ trailer ++ rm_delimiter (base m).

(** ** protocol.go: the validator

    A Go [error] is its message text; [None] is [nil]. *)

Record Protocol := { p_delimiter : bytes }.

Definition NewProtocol (delimiter : bytes) : Protocol :=
  {| p_delimiter := if bool_decide (delimiter = []) then [SOH] else delimiter |}.

(** The body of the loop of [parseFields], for one [part]. *)
Definition parsePart (fields : gmap Z (list bytes)) (part : bytes) : gmap Z (list bytes) :=
  if bool_decide (part = []) then fields
  else
    let eqIndex := Index part (lit "=") in
    if bool_decide (eqIndex ≠ -1) then
      let fieldNumStr := sliceTo part eqIndex in
      let fieldValue := sliceFrom part (eqIndex + 1) in
      match Atoi fieldNumStr with
      | Some fieldNum =>
          <[fieldNum := default [] (fields !! fieldNum) ++ [fieldValue]]> fields
      | None => fields
      end
    else fields.

Definition parseFields (p : Protocol) (message : bytes) : gmap Z (list bytes) :=
  fold_left parsePart (Split message (p_delimiter p)) ∅.

Definition calculateChecksum (p : Protocol) (message : bytes) : Z :=
  let checksum := fold_left (fun checksum b => checksum + byteVal b) message 0 in
  Z.rem checksum 256.

Definition validateChecksum (p : Protocol) (message : bytes) : option error :=
  let checksumIndex := LastIndex message (p_delimiter p ++ lit "10=") in
  if bool_decide (checksumIndex = -1) then Some (lit "checksum field not found")
  else
    let checksumStart := checksumIndex + 4 in
    let checksumEnd := Index (sliceFrom message checksumStart) (p_delimiter p) in
    let checksumEnd :=
      if bool_decide (checksumEnd = -1) then len message - checksumStart
      else checksumEnd + checksumStart in
    let checksumStr := slice message checksumStart checksumEnd in
    match Atoi checksumStr with
    | None => Some (lit "invalid checksum format: " ++ checksumStr)
    | Some checksum =>
        let messageBody := sliceTo message (checksumIndex + 1) in
        let calculatedChecksum := calculateChecksum p messageBody in
        if bool_decide (calculatedChecksum ≠ checksum) then
          Some (lit "checksum mismatch: expected " ++ itoa calculatedChecksum
                ++ lit ", got " ++ itoa checksum)
        else None
    end.

Definition ValidateMessage (p : Protocol) (message : bytes) : option error :=
  if bool_decide (message = []) then Some (lit "message is empty")
  else
    let fields := parseFields p message in
    if bool_decide (fields !! 8 = None) then Some (lit "missing BeginString field (8)")
    else if bool_decide (fields !! 9 = None) then Some (lit "missing BodyLength field (9)")
    else if bool_decide (fields !! 35 = None) then Some (lit "missing MsgType field (35)")
    else if bool_decide (fields !! 10 = None) then Some (lit "missing Checksum field (10)")
    else
      match validateChecksum p message with
      | Some err => Some (lit "checksum validation failed: " ++ err)
      | None => None
      end.

(** ** client.go: the session and the framer

    The socket is the list of the byte strings it accepted, oldest first.
    Whether the dialer or a write fails is an input of [Connect] and
    [Send].  The callbacks, channels and the mutex are left out: the
    functions below run one at a time. *)

Record Client := {
  host : bytes;
  port : Z;
  ssl : bool;
  c_delimiter : bytes;
  conn : list bytes;
  messageSequenceNum : Z;
  isConnected : bool
}.

Definition NewClient (host : bytes) (port : Z) : Client :=
  {| host := host; port := port; ssl := false; c_delimiter := [SOH];
     conn := []; messageSequenceNum := 0; isConnected := false |}.

Definition WithSSL (enabled : bool) (c : Client) : Client :=
  {| host := host c; port := port c; ssl := enabled; c_delimiter := c_delimiter c;
     conn := conn c; messageSequenceNum := messageSequenceNum c;
     isConnected := isConnected c |}.

Definition WithDelimiter (delimiter : bytes) (c : Client) : Client :=
  {| host := host c; port := port c; ssl := ssl c; c_delimiter := delimiter;
     conn := conn c; messageSequenceNum := messageSequenceNum c;
     isConnected := isConnected c |}.

(** [dialErr] is the error of the dialer, [None] when it returns a socket. *)
Definition Connect (c : Client) (dialErr : option error) : Client * option error :=
  if isConnected c then (c, Some (lit "client is already connected"))
  else
    let address := host c ++ lit ":" ++ itoa (port c) in
    match dialErr with
    | Some err =>
        (c, Some ((if ssl c then lit "failed to connect with TLS to "
                   else lit "failed to connect to ") ++ address ++ lit ": " ++ err))
    | None =>
        ({| host := host c; port := port c; ssl := ssl c; c_delimiter := c_delimiter c;
            conn := []; messageSequenceNum := 0; isConnected := true |}, None)
    end.

Definition Disconnect (c : Client) : Client * option error :=
  if negb (isConnected c) then (c, None)
  else
    ({| host := host c; port := port c; ssl := ssl c; c_delimiter := c_delimiter c;
        conn := conn c; messageSequenceNum := messageSequenceNum c;
        isConnected := false |}, None).

Definition ChangeMessageSequenceNumber (c : Client) (newSeqNum : Z) : Client :=
  {| host := host c; port := port c; ssl := ssl c; c_delimiter := c_delimiter c;
     conn := conn c; messageSequenceNum := newSeqNum; isConnected := isConnected c |}.

Definition GetMessageSequenceNumber (c : Client) : Z := messageSequenceNum c.

(** The argument of [Send] is an [interface{}]: a pointer to one of the nine
    message structs, or any other value. *)
Inductive SendArg :=
| Known (msg : Message)
| Unsupported.

(** [writeErr] is the error of [conn.Write], [None] when the socket takes
    the bytes. *)
Definition Send (c : Client) (message : SendArg) (nowBody nowHeader : Time)
                (writeErr : option error) : Client * option error :=
  if negb (isConnected c) then (c, Some (lit "client is not connected"))
  else
    let c := ChangeMessageSequenceNumber c (wrap64 (messageSequenceNum c + 1)) in
    match message with
    | Unsupported => (c, Some (lit "unsupported message type"))
    | Known msg =>
        let messageString := GetMessage msg (messageSequenceNum c) nowBody nowHeader in
        let messageString :=
          if negb (HasSuffix messageString (c_delimiter c))
          then messageString ++ c_delimiter c else messageString in
        match writeErr with
        | Some err => (c, Some (lit "failed to send message: " ++ err))
        | None =>
            ({| host := host c; port := port c; ssl := ssl c;
                c_delimiter := c_delimiter c; conn := conn c ++ [messageString];
                messageSequenceNum := messageSequenceNum c;
                isConnected := isConnected c |}, None)
        end
    end.

(** A function either returns or panics (an index out of range). *)
Inductive outcome (A : Type) :=
| Returns (a : A)
| Panics.
Arguments Returns {A} a.
Arguments Panics {A}.

(** The inner loop of [findMessageEnd]: [j] runs over [rest = buffer[j:]];
    [c.delimiter[0]] panics on an empty delimiter. *)
Fixpoint scanDelimiter (delimiter rest : bytes) (j : Z) : outcome (option Z) :=
  match rest with
  | [] => Returns None
  | b :: rest' =>
      match delimiter with
      | [] => Panics
      | d :: _ =>
          if Ascii.eqb b d then Returns (Some (j + 1))
          else scanDelimiter delimiter rest' (j + 1)
      end
  end.

(** The outer loop: [i] runs over [suffix = buffer[i:]] while
    [i < len(buffer)-4], [n] being [len(buffer)]. *)
Fixpoint findFrom (delimiter : bytes) (n : Z) (suffix : bytes) (i : Z) : outcome Z :=
  match suffix with
  | [] => Returns (-1)
  | _ :: suffix' =>
      if i <? n - 4 then
        if HasPrefix suffix (lit "10=") then
          match scanDelimiter delimiter (drop 3 suffix) (i + 3) with
          | Panics => Panics
          | Returns (Some messageEnd) => Returns messageEnd
          | Returns None => findFrom delimiter n suffix' (i + 1)
          end
        else findFrom delimiter n suffix' (i + 1)
      else Returns (-1)
  end.

Definition findMessageEnd (c : Client) (buffer : bytes) : outcome Z :=
  findFrom (c_delimiter c) (len buffer) buffer 0.

(** One round of the loop "Process complete messages" of [readMessages]:
    [None] when it breaks, else the message taken and the bytes kept. *)
Definition extractMessage (c : Client) (messageBuffer : bytes)
  : outcome (option (bytes * bytes)) :=
  match findMessageEnd c messageBuffer with
  | Panics => Panics
  | Returns messageEnd =>
      if bool_decide (messageEnd = -1) then Returns None
      else Returns (Some (sliceTo messageBuffer messageEnd,
                          sliceFrom messageBuffer messageEnd))
  end.

(** The whole loop: the messages taken, in order, and the bytes kept in
    [messageBuffer].  Every round takes at least one byte, so
    [length messageBuffer] rounds suffice. *)
Fixpoint processRounds (rounds : nat) (c : Client) (messageBuffer : bytes)
  : outcome (list bytes * bytes) :=
  match rounds with
  | O => Returns ([], messageBuffer)
  | S rounds' =>
      match extractMessage c messageBuffer with
      | Panics => Panics
      | Returns None => Returns ([], messageBuffer)
      | Returns (Some (message, rest)) =>
          match processRounds rounds' c rest with
          | Panics => Panics
          | Returns (messages, kept) => Returns (message :: messages, kept)
          end
      end
  end.

Definition processBuffer (c : Client) (messageBuffer : bytes)
  : outcome (list bytes * bytes) :=
  processRounds (length messageBuffer) c messageBuffer.

(** ** Views used to state the properties

    The fields a message writes, as (tag, value) pairs in wire order, and
    the text of one field.  [wire_structure] below shows that [GetMessage]
    writes exactly these fields, each followed by the delimiter. *)

Definition encodeField (f : Z * bytes) : bytes := itoa f.1 ++ "="%char :: f.2.

Definition headerPairs (rm : RequestMessage) (sequenceNumber : Z) (now : Time)
  : list (Z * bytes) :=
  [ (35, messageType rm);
    (49, SenderCompID (config rm));
    (56, TargetCompID (config rm));
    (57, TargetSubID (config rm));
    (50, SenderSubID (config rm));
    (34, itoa sequenceNumber);
    (52, formatMillis now) ].

Definition bodyPairs (m : Message) (now : Time) : list (Z * bytes) :=
  let cfg := config (base m) in
  match variant m with
  | LogonRequest EncryptionScheme ResetSeqNum =>
      [ (98, itoa EncryptionScheme); (108, itoa (HeartBeat cfg)) ]
      ++ (if ResetSeqNum then [ (141, lit "Y") ] else [])
      ++ [ (553, Username cfg); (554, Password cfg) ]
  | Heartbeat TestReqID =>
      if bool_decide (TestReqID = []) then [] else [ (112, TestReqID) ]
  | TestRequest TestReqID => [ (112, TestReqID) ]
  | LogoutRequest => []
  | OrderMsg ClOrdID Symbol Side OrderQty OrdType Price =>
      [ (11, ClOrdID); (55, Symbol); (54, Side); (60, formatSeconds now);
        (38, fmtFixed 2 OrderQty); (40, OrdType) ]
      ++ (if f64_nonzero Price then [ (44, fmtFixed 5 Price) ] else [])
  | OrderCancelRequest OrigClOrdID OrderID ClOrdID =>
      [ (41, OrigClOrdID) ]
      ++ (if bool_decide (OrderID ≠ []) then [ (37, OrderID) ] else [])
      ++ [ (11, ClOrdID) ]
  | MarketDataRequest MDReqID SubscriptionRequestType MarketDepth NoMDEntryTypes
                      MDEntryType NoRelatedSym Symbol =>
      [ (262, MDReqID); (263, SubscriptionRequestType); (264, itoa MarketDepth);
        (267, itoa NoMDEntryTypes); (269, MDEntryType); (146, itoa NoRelatedSym);
        (55, Symbol) ]
  | SecurityListRequest SecurityReqID SecurityListRequestType Symbol =>
      [ (320, SecurityReqID); (559, SecurityListRequestType) ]
      ++ (if bool_decide (Symbol ≠ []) then [ (55, Symbol) ] else [])
  | RequestForPositions PosReqID PosMaintRptID =>
      [ (710, PosReqID) ]
      ++ (if bool_decide (PosMaintRptID ≠ []) then [ (721, PosMaintRptID) ] else [])
  end.

(** The number [getHeader] writes as BodyLength. *)
Definition bodyLengthWritten (m : Message) (sequenceNumber : Z) (nowBody nowHeader : Time)
  : Z :=
  len (GetBody m nowBody)
  + len (Join (headerFields (base m) sequenceNumber nowHeader) (rm_delimiter (base m)))
  + 2.

(** Everything the header and the body of a message write. *)
Definition writtenFields (m : Message) (sequenceNumber : Z) (nowBody nowHeader : Time)
  : list (Z * bytes) :=
  [ (8, BeginString (config (base m)));
    (9, itoa (bodyLengthWritten m sequenceNumber nowBody nowHeader)) ]
  ++ headerPairs (base m) sequenceNumber nowHeader
  ++ bodyPairs m nowBody.

(** A message struct as the constructors of the package make it. *)
Definition message (messageType : bytes) (config : Config) (v : Variant) : Message :=
  {| base := NewRequestMessage messageType config; variant := v |}.

(** The sum of the byte values of a text. *)
Definition byteSum (s : bytes) : Z := foldr (fun b acc => byteVal b + acc) 0 s.

Definition isDigit (c : ascii) : bool := (48 <=? byteVal c) && (byteVal c <=? 57).

(** Cutting a text at every occurrence of one byte. *)
Fixpoint splitOn (d : ascii) (s : bytes) : list bytes :=
  match s with
  | [] => [[]]
  | c :: s' =>
      if Ascii.eqb c d then [] :: splitOn d s'
      else match splitOn d s' with
           | h :: t => (c :: h) :: t
           | [] => [[c]]
           end
  end.

(** Consecutive successful sends: every [conn.Write] succeeds. *)
Fixpoint sendAll (c : Client) (reqs : list (Message * Time * Time))
  : Client * list (option error) :=
  match reqs with
  | [] => (c, [])
  | (msg, nowBody, nowHeader) :: reqs' =>
      let '(c1, err) := Send c (Known msg) nowBody nowHeader None in
      let '(c2, errs) := sendAll c1 reqs' in
      (c2, err :: errs)
  end.

(** What [Send] hands to the socket for a message built with
    [sequenceNumber]. *)
Definition wireOf (c : Client) (msg : Message) (sequenceNumber : Z)
                  (nowBody nowHeader : Time) : bytes :=
  let messageString := GetMessage msg sequenceNumber nowBody nowHeader in
  if HasSuffix messageString (c_delimiter c) then messageString
  else messageString ++ c_delimiter c.

(** Positions in a buffer: the marker [10=] starts at [i]; the byte at [j]
    is [d]. *)
Definition markerAt (buffer : bytes) (i : nat) : Prop :=
  buffer !! i = Some "1"%char ∧ buffer !! (i + 1)%nat = Some "0"%char
  ∧ buffer !! (i + 2)%nat = Some "="%char.

Definition firstMarkerAt (buffer : bytes) (i : nat) : Prop :=
  markerAt buffer i ∧ ∀ i', (i' < i)%nat → ¬ markerAt buffer i'.

Definition firstDelimiterFrom (d : ascii) (buffer : bytes) (from j : nat) : Prop :=
  (from ≤ j)%nat ∧ buffer !! j = Some d
  ∧ ∀ j', (from ≤ j')%nat → (j' < j)%nat → buffer !! j' ≠ Some d.

(** A list of fields on the wire: each one followed by the delimiter. *)
Definition delimited (d : ascii) (fields : list bytes) : bytes :=
  concat (map (fun f => f ++ [d]) fields).

(** Sample data for the examples: the configuration of the package's own
    tests and a clock reading. *)
Definition sampleConfig : Config :=
  {| BeginString := lit "FIX.4.4"; SenderCompID := lit "SENDER";
     TargetCompID := lit "TARGET"; TargetSubID := lit "QUOTE";
     SenderSubID := lit "QUOTE"; Username := lit "user"; Password := lit "pass";
     HeartBeat := 30 |}.

Definition sampleTime : Time :=
  {| year := 2023; month := 11; day := 1; hour := 10; minute := 0; second := 5;
     nanosecond := 123456789 |}.

(** A configuration whose user name holds the delimiter byte. *)
Definition splitUserConfig : Config :=
  {| BeginString := lit "FIX.4.4"; SenderCompID := lit "SENDER";
     TargetCompID := lit "TARGET"; TargetSubID := lit "QUOTE";
     SenderSubID := lit "QUOTE"; Username := [ "a"%char; SOH; "b"%char ];
     Password := lit "pass"; HeartBeat := 30 |}.

(** A message with the four mandatory fields and a matching checksum whose
    BodyLength (999) is not the length of anything in it. *)
Definition wrongLengthMessage : bytes :=
  let prefix := lit "8=FIX.4.4" ++ SOH :: lit "9=999" ++ SOH :: lit "35=0" ++ [SOH] in
  prefix ++ lit "10=" ++ fmt03d (byteSum prefix mod 256) ++ [SOH].

(** The text of the package's own test for a message without BeginString. *)
Definition headlessMessage : bytes := lit "35=A" ++ SOH :: lit "49=SENDER" ++ [SOH].

(** The checks on a tag that are settled by running them: its decimal text
    has no [=] and [Atoi] reads it back. *)
Definition tagChecks (tag : Z) : bool :=
  bool_decide (Atoi (itoa tag) = Some tag)
  && forallb (fun c => negb (Ascii.eqb c "=")) (itoa tag).

(** The checks on a checksum value [c] that are settled by running them on
    each of the 256 values: its three digits, read back by [Atoi], and how
    [LastIndex] and [Index] find them in a trailer. *)
Definition trailerChecks (c : Z) : bool :=
  (length (fmt03d c) =? 3)%nat
  && forallb isDigit (fmt03d c)
  && bool_decide (Atoi (fmt03d c) = Some c)
  && bool_decide (LastIndex (SOH :: lit "10=" ++ fmt03d c ++ [SOH]) (SOH :: lit "10=") = 0)
  && bool_decide (Index (fmt03d c ++ [SOH]) [SOH] = 3).

(** ** Further code of the package and the views of its properties *)

(** messages.go: a decoded inbound message.  The loop of
    [NewResponseMessage] is the loop of [parseFields], statement for
    statement. *)
Record ResponseMessage := {
  resp_message : bytes;
  resp_fields : gmap Z (list bytes)
}.

(** [strings.ReplaceAll(s, old, new)] for a non-empty [old]: the matches
    are found left to right, as [Split] finds them.  For an empty [old] Go
    puts [new] before every UTF-8 sequence and at the end; that is around
    every byte for ASCII text. *)
Fixpoint replaceRounds (rounds : nat) (s old new : bytes) : bytes :=
  match rounds with
  | O => s
  | S rounds' =>
      let m := Index s old in
      if m <? 0 then s
      else sliceTo s m ++ new ++ replaceRounds rounds' (sliceFrom s (m + len old)) old new
  end.

Definition ReplaceAll (s old new : bytes) : bytes :=
  match old with
  | [] => new ++ concat (map (fun c => c :: new) s)
  | _ => replaceRounds (length s) s old new
  end.

Definition NewResponseMessage (message delimiter : bytes) : ResponseMessage :=
  let processedMessage := ReplaceAll message delimiter (lit "|") in
  let fields := fold_left parsePart (Split message delimiter) ∅ in
  {| resp_message := processedMessage; resp_fields := fields |}.

(** The [interface{}] that [GetFieldValue] returns: [nil], a [string], or
    the [[]string] of a repeated tag. *)
Inductive FieldValue :=
| NoValue
| OneValue (value : bytes)
| Values (values : list bytes).

Definition GetFieldValue (rm : ResponseMessage) (fieldNumber : Z) : FieldValue :=
  match resp_fields rm !! fieldNumber with
  | None => NoValue
  | Some values =>
      if bool_decide (length values = 1%nat)
      then match values with v :: _ => OneValue v | [] => Values values end
      else Values values
  end.

Definition GetMessageType (rm : ResponseMessage) : bytes :=
  match resp_fields rm !! 35 with
  | Some (v :: _) => v
  | _ => []
  end.

(** The value of a decimal numeral read after [acc]. *)
Fixpoint uintValue (acc : Z) (u : Decimal.uint) : Z :=
  match u with
  | Decimal.Nil => acc
  | Decimal.D0 u => uintValue (acc * 10 + 0) u
  | Decimal.D1 u => uintValue (acc * 10 + 1) u
  | Decimal.D2 u => uintValue (acc * 10 + 2) u
  | Decimal.D3 u => uintValue (acc * 10 + 3) u
  | Decimal.D4 u => uintValue (acc * 10 + 4) u
  | Decimal.D5 u => uintValue (acc * 10 + 5) u
  | Decimal.D6 u => uintValue (acc * 10 + 6) u
  | Decimal.D7 u => uintValue (acc * 10 + 7) u
  | Decimal.D8 u => uintValue (acc * 10 + 8) u
  | Decimal.D9 u => uintValue (acc * 10 + 9) u
  end.

(** The values a list of fields gives to a tag, in order. *)
Fixpoint valuesOf (tag : Z) (fields : list (Z * bytes)) : list bytes :=
  match fields with
  | [] => []
  | f :: rest =>
      if bool_decide (f.1 = tag) then f.2 :: valuesOf tag rest
      else valuesOf tag rest
  end.

(** What decoding should give for a tag: nothing, or its values. *)
Definition grouped (tag : Z) (fields : list (Z * bytes)) : option (list bytes) :=
  match valuesOf tag fields with
  | [] => None
  | vs => Some vs
  end.

(** The step of the decoder on a well-formed field. *)
Definition addField (fields : gmap Z (list bytes)) (f : Z * bytes) : gmap Z (list bytes) :=
  <[f.1 := default [] (fields !! f.1) ++ [f.2]]> fields.

(** The texts a caller puts into a message: the message type, the strings
    of the configuration and the string fields of the variant. *)
Definition variantTexts (v : Variant) : list bytes :=
  match v with
  | LogonRequest _ _ => []
  | Heartbeat TestReqID => [TestReqID]
  | TestRequest TestReqID => [TestReqID]
  | LogoutRequest => []
  | OrderMsg ClOrdID Symbol Side _ OrdType _ => [ClOrdID; Symbol; Side; OrdType]
  | OrderCancelRequest OrigClOrdID OrderID ClOrdID => [OrigClOrdID; OrderID; ClOrdID]
  | MarketDataRequest MDReqID SubscriptionRequestType _ _ MDEntryType _ Symbol =>
      [MDReqID; SubscriptionRequestType; MDEntryType; Symbol]
  | SecurityListRequest SecurityReqID SecurityListRequestType Symbol =>
      [SecurityReqID; SecurityListRequestType; Symbol]
  | RequestForPositions PosReqID PosMaintRptID => [PosReqID; PosMaintRptID]
  end.

Definition textFields (m : Message) : list bytes :=
  let cfg := config (base m) in
  [ messageType (base m); BeginString cfg; SenderCompID cfg; TargetCompID cfg;
    TargetSubID cfg; SenderSubID cfg; Username cfg; Password cfg ]
  ++ variantTexts (variant m).

(** No text of the message holds the delimiter byte. *)
Definition delimiterFree (m : Message) : Prop :=
  Forall (fun s => SOH ∉ s) (textFields m).

(** The fields of a built message, the trailer included. *)
Definition wireFields (m : Message) (sequenceNumber : Z) (nowBody nowHeader : Time)
  : list (Z * bytes) :=
  writtenFields m sequenceNumber nowBody nowHeader
  ++ [ (10, fmt03d (byteSum (headerAndBodyOf m sequenceNumber nowBody nowHeader)
                    mod 256)) ].

(** The outer loop of [readMessages] over the chunks that successive
    successful reads return: each chunk is appended to [messageBuffer] and
    the inner loop runs.  The result is the messages handed to
    [NewResponseMessage], in order, and the bytes kept for the next read.
    (Whether the channel then takes a message or drops it, and cancellation,
    are not part of this.) *)
Fixpoint readChunks (c : Client) (messageBuffer : bytes) (chunks : list bytes)
  : outcome (list bytes * bytes) :=
  match chunks with
  | [] => Returns ([], messageBuffer)
  | data :: chunks' =>
      match processBuffer c (messageBuffer ++ data) with
      | Panics => Panics
      | Returns (messages, kept) =>
          match readChunks c kept chunks' with
          | Panics => Panics
          | Returns (messages', kept') => Returns (messages ++ messages', kept')
          end
      end
  end.

(** A run of [Send] calls of any kind: each call has its argument, the
    clock readings and the outcome of the write. *)
Fixpoint sendCalls (c : Client) (calls : list (SendArg * Time * Time * option error))
  : Client :=
  match calls with
  | [] => c
  | (arg, nowBody, nowHeader, writeErr) :: calls' =>
      sendCalls (Send c arg nowBody nowHeader writeErr).1 calls'
  end.

(** What such a run should put on the socket when the counter stands at
    [s] before it: a call writes only when its argument is a message and its
    write succeeds, and the call number [k] of the run uses [s + k]. *)
Fixpoint writesOf (c : Client) (s : Z) (calls : list (SendArg * Time * Time * option error))
  : list bytes :=
  match calls with
  | [] => []
  | (arg, nowBody, nowHeader, writeErr) :: calls' =>
      match arg, writeErr with
      | Known msg, None => [wireOf c msg (s + 1) nowBody nowHeader]
      | _, _ => []
      end ++ writesOf c (s + 1) calls'
  end.

(** ** Lemmas on the library functions *)

Section Strings.

Lemma HasPrefix_single d s :
  HasPrefix s [d] = match s with c :: _ => Ascii.eqb c d | [] => false end.
Proof. destruct s as [|c s]; simpl; [done|]. by destruct (Ascii.eqb c d). Qed.

Lemma IndexFrom_absent d s i : d ∉ s → IndexFrom s [d] i = -1.
Proof.
  revert i. induction s as [|c s IH]; intros i Hd; simpl; [done|].
  apply not_elem_of_cons in Hd as [Hcd Hs].
  assert (Ascii.eqb c d = false) as -> by (apply Ascii.eqb_neq; congruence).
  by apply IH.
Qed.

Lemma IndexFrom_first d a b i : d ∉ a → IndexFrom (a ++ d :: b) [d] i = i + len a.
Proof.
  revert i. induction a as [|c a IH]; intros i Hd; simpl.
  - rewrite Ascii.eqb_refl. unfold len. simpl. lia.
  - apply not_elem_of_cons in Hd as [Hcd Ha].
    assert (Ascii.eqb c d = false) as -> by (apply Ascii.eqb_neq; congruence).
    rewrite IH by done. unfold len. simpl length. lia.
Qed.

Lemma first_occurrence d (s : bytes) :
  d ∉ s ∨ ∃ a b, s = a ++ d :: b ∧ d ∉ a.
Proof.
  induction s as [|c s IH]; [left; apply not_elem_of_nil|].
  destruct (decide (c = d)) as [->|Hne].
  - right. exists [], s. split; [done|apply not_elem_of_nil].
  - destruct IH as [Hs|(a & b & -> & Ha)].
    + left. apply not_elem_of_cons. split; [congruence|done].
    + right. exists (c :: a), b. split; [done|].
      apply not_elem_of_cons. split; [congruence|done].
Qed.

Lemma splitOn_nonempty d s : splitOn d s ≠ [].
Proof.
  destruct s as [|c s]; simpl; [done|].
  destruct (Ascii.eqb c d); [done|]. by destruct (splitOn d s).
Qed.

Lemma splitOn_absent d s : d ∉ s → splitOn d s = [s].
Proof.
  induction s as [|c s IH]; intros Hd; simpl; [done|].
  apply not_elem_of_cons in Hd as [Hcd Hs].
  assert (Ascii.eqb c d = false) as -> by (apply Ascii.eqb_neq; congruence).
  by rewrite IH.
Qed.

(** Cutting distributes over a delimiter. *)
Lemma splitOn_app d a b : splitOn d (a ++ d :: b) = splitOn d a ++ splitOn d b.
Proof.
  induction a as [|c a IH]; simpl.
  - by rewrite Ascii.eqb_refl.
  - destruct (Ascii.eqb c d); [by rewrite IH|].
    rewrite IH. pose proof (splitOn_nonempty d a).
    by destruct (splitOn d a).
Qed.

Lemma splitOn_first d a b : d ∉ a → splitOn d (a ++ d :: b) = a :: splitOn d b.
Proof. intros Ha. by rewrite splitOn_app, splitOn_absent. Qed.

(** The first piece keeps a delimiter-free prefix of the text. *)
Lemma splitOn_head_prefix d p v :
  d ∉ p → ∃ v' t, splitOn d (p ++ v) = (p ++ v') :: t.
Proof.
  intros Hp. destruct (first_occurrence d v) as [Hv|(a & b & -> & Ha)].
  - exists v, []. apply splitOn_absent. rewrite elem_of_app. tauto.
  - exists a, (splitOn d b). rewrite app_assoc. apply splitOn_first.
    rewrite elem_of_app. tauto.
Qed.

Lemma genSplit_single d n s : (length s ≤ n)%nat → genSplit n s [d] = splitOn d s.
Proof.
  revert s. induction n as [|n IH]; intros s Hn.
  - destruct s; [done|simpl in Hn; lia].
  - simpl. unfold Index.
    destruct (first_occurrence d s) as [Hs|(a & b & -> & Ha)].
    + rewrite IndexFrom_absent by done. simpl. by rewrite splitOn_absent.
    + rewrite IndexFrom_first by done.
      assert ((0 + len a <? 0) = false) as -> by (apply Z.ltb_ge; unfold len; lia).
      unfold sliceTo, sliceFrom, len. simpl length.
      replace (Z.to_nat (0 + Z.of_nat (length a))) with (length a) by lia.
      replace (Z.to_nat (0 + Z.of_nat (length a) + Z.of_nat 1))
        with (length a + 1)%nat by lia.
      rewrite take_app_length.
      rewrite <- drop_drop, drop_app_length. simpl drop.
      rewrite IH, splitOn_first; [done|done|].
      rewrite length_app in Hn. simpl in Hn. rewrite drop_0. lia.
Qed.

Lemma Split_single d s : Split s [d] = splitOn d s.
Proof. unfold Split. by apply genSplit_single. Qed.

End Strings.

(** ** Lemmas on numbers and checksums *)

Section Numbers.

Lemma byteVal_range b : 0 <= byteVal b < 256.
Proof.
  unfold byteVal. pose proof (nat_ascii_bounded b). lia.
Qed.

Lemma byteSum_nonneg s : 0 <= byteSum s.
Proof.
  induction s as [|b s IH]; simpl; [lia|]. pose proof (byteVal_range b). lia.
Qed.

Lemma fold_left_byteSum s acc :
  fold_left (fun checksum b => checksum + byteVal b) s acc = acc + byteSum s.
Proof.
  revert acc. induction s as [|b s IH]; intros acc; simpl; [lia|].
  rewrite IH. lia.
Qed.

Lemma calculateChecksum_byteSum p s : calculateChecksum p s = byteSum s mod 256.
Proof.
  unfold calculateChecksum. rewrite fold_left_byteSum, Z.add_0_l.
  apply Z.rem_mod_nonneg; [apply byteSum_nonneg|lia].
Qed.

Lemma calculateChecksum_range p s : 0 <= calculateChecksum p s < 256.
Proof. rewrite calculateChecksum_byteSum. apply Z.mod_pos_bound. lia. Qed.

Lemma getTrailer_calculateChecksum p s :
  getTrailer s = lit "10=" ++ fmt03d (calculateChecksum p s).
Proof. reflexivity. Qed.

Lemma trailerChecks_all : forallb (fun n => trailerChecks (Z.of_nat n)) (seq 0 256) = true.
Proof. vm_compute. reflexivity. Qed.

Lemma trailerChecks_range c : 0 <= c < 256 → trailerChecks c = true.
Proof.
  intros Hc. pose proof trailerChecks_all as H.
  rewrite forallb_forall in H. specialize (H (Z.to_nat c)).
  rewrite Z2Nat.id in H by lia. apply H. apply in_seq. lia.
Qed.

Lemma fmt03d_facts c :
  0 <= c < 256 →
  length (fmt03d c) = 3%nat
  ∧ forallb isDigit (fmt03d c) = true
  ∧ Atoi (fmt03d c) = Some c
  ∧ LastIndex (SOH :: lit "10=" ++ fmt03d c ++ [SOH]) (SOH :: lit "10=") = 0
  ∧ Index (fmt03d c ++ [SOH]) [SOH] = 3.
Proof.
  intros Hc. pose proof (trailerChecks_range c Hc) as H. unfold trailerChecks in H.
  repeat (apply andb_prop in H as [H ?]).
  repeat split; try done; try by eapply bool_decide_eq_true_1.
  by apply Nat.eqb_eq.
Qed.

(** Decimal digits never are the delimiter. *)
Lemma uint_digits (u : Decimal.uint) :
  Forall (fun c => isDigit c = true) (lit (NilEmpty.string_of_uint u)).
Proof. induction u; simpl; constructor; done. Qed.

Lemma utoa_digits n : Forall (fun c => isDigit c = true) (utoa n).
Proof.
  unfold utoa, NilZero.string_of_uint.
  destruct (N.to_uint n) eqn:E; try apply uint_digits.
  simpl. by repeat constructor.
Qed.

Lemma itoa_chars z : Forall (fun c => isDigit c = true ∨ c = "-"%char) (itoa z).
Proof.
  unfold itoa, NilZero.string_of_int.
  assert (∀ u, Forall (fun c => isDigit c = true ∨ c = "-"%char)
                 (lit (NilZero.string_of_uint u))) as Hu.
  { intros u. eapply Forall_impl; [|by intros c Hc; left; exact Hc].
    unfold NilZero.string_of_uint.
    destruct u; try apply uint_digits. simpl. by repeat constructor. }
  destruct (Z.to_int z); simpl; [apply Hu|].
  constructor; [by right|apply Hu].
Qed.

Lemma itoa_no_SOH z : SOH ∉ itoa z.
Proof.
  intros Hin. pose proof (itoa_chars z) as H.
  rewrite Forall_forall in H. destruct (H _ Hin) as [Hd|Hd]; discriminate Hd.
Qed.

End Numbers.

(** ** The structure of a built message *)

Section Wire.

Ltac norm_app := repeat (rewrite <- app_assoc || rewrite <- app_comm_cons).

Lemma delimited_app d xs ys : delimited d (xs ++ ys) = delimited d xs ++ delimited d ys.
Proof. unfold delimited. by rewrite map_app, concat_app. Qed.

Lemma delimited_cons d x xs : delimited d (x :: xs) = x ++ d :: delimited d xs.
Proof. unfold delimited. simpl. by rewrite <- app_assoc. Qed.

Lemma Join_delimited d fields :
  fields ≠ [] → Join fields [d] ++ [d] = delimited d fields.
Proof.
  induction fields as [|x [|y rest] IH]; intros Hne; [done| |].
  - simpl. unfold delimited. simpl. by rewrite app_nil_r.
  - rewrite delimited_cons, <- IH by done.
    change (Join (x :: y :: rest) [d]) with (x ++ [d] ++ Join (y :: rest) [d]).
    by rewrite <- !app_assoc.
Qed.

Lemma headerFields_pairs rm sequenceNumber now :
  headerFields rm sequenceNumber now = map encodeField (headerPairs rm sequenceNumber now).
Proof. reflexivity. Qed.

Lemma GetBody_pairs m now :
  GetBody m now = Join (map encodeField (bodyPairs m now)) (rm_delimiter (base m)).
Proof.
  destruct m as [rm v]. unfold GetBody, bodyPairs, bodyFields. cbn [variant base].
  destruct v as [e r|t|t| |c sy si q o pr|o i c|? ? ? ? ? ? ?|r t sy|r i];
    try reflexivity.
  - by destruct r.
  - by case_bool_decide.
  - by destruct (f64_nonzero pr).
  - by case_bool_decide.
  - by case_bool_decide.
  - by case_bool_decide.
Qed.

Lemma encodeField_nonempty f : encodeField f ≠ [].
Proof. unfold encodeField. by destruct (itoa f.1). Qed.

Lemma Join_nil_inv (fields : list bytes) sep :
  Forall (fun f => f ≠ []) fields → Join fields sep = [] → fields = [].
Proof.
  destruct fields as [|x [|y rest]]; intros Hall; [done| |];
    apply Forall_cons in Hall as [Hx _]; simpl; intros H; [done|].
  by apply app_eq_nil in H as [? _].
Qed.

Lemma GetBody_nil m now : GetBody m now = [] ↔ bodyPairs m now = [].
Proof.
  rewrite GetBody_pairs. split.
  - intros H. apply Join_nil_inv in H.
    + by destruct (bodyPairs m now).
    + apply Forall_forall. intros f Hf. apply list_elem_of_In, in_map_iff in Hf.
      destruct Hf as (x & <- & _). apply encodeField_nonempty.
  - by intros ->.
Qed.

(** The header and the body: the written fields, each delimiter-terminated. *)
Lemma headerAndBody_structure mt cfg v sequenceNumber nowBody nowHeader :
  let m := message mt cfg v in
  headerAndBodyOf m sequenceNumber nowBody nowHeader
  = delimited SOH (map encodeField (writtenFields m sequenceNumber nowBody nowHeader)).
Proof.
  intros m. unfold headerAndBodyOf, writtenFields, getHeader.
  rewrite !map_app, !delimited_app.
  change (rm_delimiter (base m)) with [SOH].
  change (map encodeField [(8, BeginString (config (base m)));
            (9, itoa (bodyLengthWritten m sequenceNumber nowBody nowHeader))])
    with [lit "8=" ++ BeginString (config (base m));
          lit "9=" ++ itoa (bodyLengthWritten m sequenceNumber nowBody nowHeader)].
  rewrite !delimited_cons. unfold delimited at 1. cbn [map concat].
  rewrite <- (headerFields_pairs (base m)).
  rewrite <- (Join_delimited SOH (headerFields _ _ _)) by done.
  unfold bodyLengthWritten. change (rm_delimiter (base m)) with [SOH].
  case_bool_decide as Hbody.
  - rewrite <- (Join_delimited SOH (map encodeField (bodyPairs m nowBody))).
    + rewrite (GetBody_pairs m nowBody). change (rm_delimiter (base m)) with [SOH].
      norm_app. reflexivity.
    + intros Hnil. apply Hbody. apply GetBody_nil. by destruct (bodyPairs m nowBody).
  - rewrite Hbody.
    apply GetBody_nil in Hbody. rewrite Hbody.
    change (len []) with 0. unfold delimited. cbn [map concat].
    rewrite !app_nil_r. norm_app. reflexivity.
Qed.

Lemma GetMessage_structure p mt cfg v sequenceNumber nowBody nowHeader :
  let m := message mt cfg v in
  let headerAndBody := headerAndBodyOf m sequenceNumber nowBody nowHeader in
  GetMessage m sequenceNumber nowBody nowHeader
  = headerAndBody ++ lit "10=" ++ fmt03d (calculateChecksum p headerAndBody) ++ [SOH].
Proof.
  intros m hb. unfold GetMessage.
  rewrite (getTrailer_calculateChecksum p). fold hb.
  change (rm_delimiter (base m)) with [SOH]. by rewrite <- app_assoc.
Qed.

(** The header and the body end with the delimiter. *)
Lemma headerAndBody_ends mt cfg v sequenceNumber nowBody nowHeader :
  ∃ pre, headerAndBodyOf (message mt cfg v) sequenceNumber nowBody nowHeader = pre ++ [SOH].
Proof.
  unfold headerAndBodyOf. change (rm_delimiter (base (message mt cfg v))) with [SOH].
  case_bool_decide; eexists; [by rewrite !app_assoc|done].
Qed.

End Wire.

(** ** The checksum trailer and the body length of built messages *)

Section Builder.

Lemma len_app (a b : bytes) : len (a ++ b) = len a + len b.
Proof. unfold len. rewrite length_app. lia. Qed.

(** C1: whatever the variant, its fields, the configuration, the sequence
    number and the clock, the built message is a prefix ending with the
    delimiter, then [10=NNN] and the delimiter, where [NNN] is three decimal
    digits whose value is the sum of the bytes of that prefix modulo 256, the
    number [calculateChecksum] computes on it. *)
Theorem C1_checksum_trailer (p : Protocol) mt cfg v sequenceNumber nowBody nowHeader :
  ∃ pre NNN,
    GetMessage (message mt cfg v) sequenceNumber nowBody nowHeader
      = (pre ++ [SOH]) ++ lit "10=" ++ NNN ++ [SOH]
    ∧ length NNN = 3%nat
    ∧ forallb isDigit NNN = true
    ∧ NNN = fmt03d (byteSum (pre ++ [SOH]) mod 256)
    ∧ Atoi NNN = Some (byteSum (pre ++ [SOH]) mod 256)
    ∧ calculateChecksum p (pre ++ [SOH]) = byteSum (pre ++ [SOH]) mod 256.
Proof.
  destruct (headerAndBody_ends mt cfg v sequenceNumber nowBody nowHeader) as [pre Hpre].
  exists pre, (fmt03d (calculateChecksum p (pre ++ [SOH]))).
  rewrite (GetMessage_structure p), Hpre.
  pose proof (calculateChecksum_range p (pre ++ [SOH])) as Hrange.
  destruct (fmt03d_facts _ Hrange) as (Hlen & Hdigits & Hatoi & _).
  rewrite <- (calculateChecksum_byteSum p). done.
Qed.

(** C2, as the code has it: the message is [8=...], [9=n], then the header
    fields from MsgType on and the body fields, each with its delimiter,
    then the trailer.  The number [n] written as BodyLength is the byte
    count of that middle part when the body is not empty, and one more than
    it when the body is empty. *)
Theorem C2_BodyLength_one_too_many_on_empty_body
    (p : Protocol) mt cfg v sequenceNumber nowBody nowHeader :
  let m := message mt cfg v in
  let n := bodyLengthWritten m sequenceNumber nowBody nowHeader in
  let middle :=
    delimited SOH (map encodeField
      (headerPairs (base m) sequenceNumber nowHeader ++ bodyPairs m nowBody)) in
  GetMessage m sequenceNumber nowBody nowHeader
    = lit "8=" ++ BeginString cfg ++ [SOH] ++ lit "9=" ++ itoa n ++ [SOH]
      ++ middle
      ++ lit "10="
      ++ fmt03d (calculateChecksum p (headerAndBodyOf m sequenceNumber nowBody nowHeader))
      ++ [SOH]
  ∧ n = len middle + (if bool_decide (GetBody m nowBody = []) then 1 else 0).
Proof.
  intros m n middle. subst m. split.
  - rewrite (GetMessage_structure p), headerAndBody_structure.
    unfold writtenFields.
    rewrite map_app, delimited_app. fold n. fold middle.
    unfold delimited at 1. cbn [map concat encodeField fst snd].
    rewrite app_nil_r, <- !app_assoc. reflexivity.
  - set (m := message mt cfg v) in *.
    unfold n, middle, bodyLengthWritten.
    rewrite map_app, delimited_app, len_app.
    rewrite <- (headerFields_pairs (base m)).
    rewrite <- (Join_delimited SOH (headerFields _ _ _)) by done.
    change (rm_delimiter (base m)) with [SOH]. rewrite len_app.
    change (len [SOH]) with 1.
    case_bool_decide as Hbody.
    + rewrite Hbody. apply GetBody_nil in Hbody. rewrite Hbody.
      change (len (delimited SOH (map encodeField []))) with 0.
      change (len []) with 0. lia.
    + rewrite <- (Join_delimited SOH (map encodeField (bodyPairs m nowBody))).
      * rewrite len_app. rewrite (GetBody_pairs m nowBody).
        change (rm_delimiter (base m)) with [SOH]. change (len [SOH]) with 1. lia.
      * intros Hnil. apply Hbody. apply GetBody_nil. by destruct (bodyPairs m nowBody).
Qed.

End Builder.

(** ** Decoding *)

Section Decoding.

Lemma parsePart_keeps fields part (tag : Z) vs value :
  fields !! tag = Some vs → value ∈ vs →
  ∃ vs', parsePart fields part !! tag = Some vs' ∧ value ∈ vs'.
Proof.
  intros Hlook Hin. unfold parsePart.
  case_bool_decide; [eauto|]. case_bool_decide; [|eauto].
  destruct (Atoi _) as [fieldNum|]; [|eauto].
  destruct (decide (fieldNum = tag)) as [->|Hne].
  - rewrite lookup_insert_eq, Hlook. simpl. eexists. split; [done|].
    apply elem_of_app. by left.
  - rewrite lookup_insert_ne by done. eauto.
Qed.

Lemma parse_keeps parts fields (tag : Z) vs value :
  fields !! tag = Some vs → value ∈ vs →
  ∃ vs', fold_left parsePart parts fields !! tag = Some vs' ∧ value ∈ vs'.
Proof.
  revert fields vs. induction parts as [|part parts IH]; intros fields vs Hlook Hin.
  - simpl. eauto.
  - simpl. destruct (parsePart_keeps fields part tag vs value Hlook Hin) as (vs' & H1 & H2).
    by eapply IH.
Qed.

Lemma no_eq_sign tagStr :
  forallb (fun c => negb (Ascii.eqb c "=")) tagStr = true → "="%char ∉ tagStr.
Proof.
  intros H Hin. rewrite forallb_forall in H.
  apply list_elem_of_In in Hin. specialize (H _ Hin).
  by rewrite Ascii.eqb_refl in H.
Qed.

Lemma parsePart_adds fields tagStr (tag : Z) value :
  "="%char ∉ tagStr → Atoi tagStr = Some tag →
  ∃ vs, parsePart fields (tagStr ++ "="%char :: value) !! tag = Some vs ∧ value ∈ vs.
Proof.
  intros Hno Hatoi. unfold parsePart.
  rewrite bool_decide_eq_false_2 by (by destruct tagStr).
  change (lit "=") with ["="%char]. unfold Index.
  rewrite IndexFrom_first by done.
  rewrite bool_decide_eq_true_2 by (unfold len; lia).
  unfold sliceTo, sliceFrom, len.
  replace (Z.to_nat (0 + Z.of_nat (length tagStr))) with (length tagStr) by lia.
  replace (Z.to_nat (0 + Z.of_nat (length tagStr) + 1)) with (length tagStr + 1)%nat by lia.
  rewrite take_app_length, Hatoi, lookup_insert_eq.
  rewrite <- drop_drop, drop_app_length.
  eexists. split; [done|]. apply elem_of_app. right. simpl. rewrite drop_0.
  apply list_elem_of_singleton. done.
Qed.

Lemma parse_adds parts fields tagStr (tag : Z) value :
  In (tagStr ++ "="%char :: value) parts →
  "="%char ∉ tagStr → Atoi tagStr = Some tag →
  ∃ vs, fold_left parsePart parts fields !! tag = Some vs ∧ value ∈ vs.
Proof.
  revert fields. induction parts as [|part parts IH]; intros fields Hin Hno Hatoi; [done|].
  simpl. destruct Hin as [->|Hin].
  - destruct (parsePart_adds fields tagStr tag value Hno Hatoi) as (vs & H1 & H2).
    by eapply parse_keeps.
  - by apply IH.
Qed.

(** A delimiter-free field of a delimited text is one of its pieces. *)
Lemma splitOn_delimited_In d (fields : list bytes) f :
  In f fields → d ∉ f → In f (splitOn d (delimited d fields)).
Proof.
  induction fields as [|x fields IH]; intros Hin Hd; [done|].
  rewrite delimited_cons, splitOn_app. apply in_or_app.
  destruct Hin as [->|Hin].
  - left. rewrite splitOn_absent by done. by left.
  - right. by apply IH.
Qed.

(** Of any field, the delimiter-free start is the start of a piece. *)
Lemma splitOn_delimited_prefix d (fields : list bytes) pre v :
  In (pre ++ v) fields → d ∉ pre →
  ∃ v', In (pre ++ v') (splitOn d (delimited d fields)).
Proof.
  induction fields as [|x fields IH]; intros Hin Hd; [done|].
  rewrite delimited_cons, splitOn_app.
  destruct Hin as [->|Hin].
  - destruct (splitOn_head_prefix d pre v Hd) as (v' & t & ->).
    exists v'. apply in_or_app. left. by left.
  - destruct (IH Hin Hd) as (v' & Hv'). exists v'. apply in_or_app. by right.
Qed.

Lemma parseFields_SOH message :
  parseFields (NewProtocol [SOH]) message = fold_left parsePart (splitOn SOH message) ∅.
Proof.
  unfold parseFields. change (p_delimiter (NewProtocol [SOH])) with [SOH].
  by rewrite Split_single.
Qed.

Lemma tagChecks_spec tag :
  tagChecks tag = true → Atoi (itoa tag) = Some tag ∧ "="%char ∉ itoa tag.
Proof.
  unfold tagChecks. intros H. apply andb_prop in H as [H1 H2]. split.
  - by eapply bool_decide_eq_true_1.
  - by apply no_eq_sign.
Qed.

(** Decoding a delimited list of fields finds every delimiter-free value
    under its tag. *)
Lemma decode_delimited (fields : list (Z * bytes)) (extra : list bytes) tag value :
  In (tag, value) fields → tagChecks tag = true → SOH ∉ value →
  ∃ vs, parseFields (NewProtocol [SOH])
          (delimited SOH (map encodeField fields ++ extra)) !! tag = Some vs
        ∧ value ∈ vs.
Proof.
  intros Hin Htag Hval. destruct (tagChecks_spec tag Htag) as [Hatoi Hno].
  rewrite parseFields_SOH. apply (parse_adds _ _ (itoa tag)); [|done|done].
  apply (splitOn_delimited_In SOH _ (encodeField (tag, value))).
  - apply in_or_app. left. by apply (in_map encodeField) in Hin.
  - unfold encodeField. cbn [fst snd]. rewrite elem_of_app, elem_of_cons.
    intros [H|[H|H]]; [by apply (itoa_no_SOH tag)|discriminate H|done].
Qed.

(** Decoding finds the tag of any field, whatever its value holds. *)
Lemma decode_delimited_key (fields : list (Z * bytes)) (extra : list bytes) tag value :
  In (tag, value) fields → tagChecks tag = true →
  is_Some (parseFields (NewProtocol [SOH])
             (delimited SOH (map encodeField fields ++ extra)) !! tag).
Proof.
  intros Hin Htag. destruct (tagChecks_spec tag Htag) as [Hatoi Hno].
  rewrite parseFields_SOH.
  destruct (splitOn_delimited_prefix SOH (map encodeField fields ++ extra)
              (itoa tag ++ ["="%char]) value) as (v' & Hv').
  - apply in_or_app. left. apply (in_map encodeField) in Hin.
    unfold encodeField in Hin. cbn [fst snd] in Hin. by rewrite <- app_assoc.
  - rewrite elem_of_app, list_elem_of_singleton.
    intros [H|H]; [by apply (itoa_no_SOH tag)|discriminate H].
  - rewrite <- app_assoc in Hv'.
    destruct (parse_adds _ ∅ _ tag v' Hv' Hno Hatoi) as (vs & Hvs & _).
    by exists vs.
Qed.

End Decoding.

(** ** Round trip through the decoder *)

Section RoundTrip.

Lemma writtenFields_tags m sequenceNumber nowBody nowHeader f :
  In f (writtenFields m sequenceNumber nowBody nowHeader) → tagChecks f.1 = true.
Proof.
  destruct m as [rm v]. unfold writtenFields, headerPairs, bodyPairs.
  cbn [base variant].
  destruct v as [e r|t|t| |c sy si q o pr|o i c|? ? ? ? ? ? ?|r t sy|r i];
    try destruct r; try destruct (f64_nonzero pr); repeat case_bool_decide;
    cbn [app In]; intros Hin;
    repeat (destruct Hin as [<-|Hin]; [by vm_compute|]); done.
Qed.

Lemma GetMessage_delimited p mt cfg v sequenceNumber nowBody nowHeader :
  let m := message mt cfg v in
  GetMessage m sequenceNumber nowBody nowHeader
  = delimited SOH
      (map encodeField (writtenFields m sequenceNumber nowBody nowHeader)
       ++ [lit "10=" ++ fmt03d (calculateChecksum p
                        (headerAndBodyOf m sequenceNumber nowBody nowHeader))]).
Proof.
  intros m. subst m. rewrite (GetMessage_structure p), delimited_app.
  rewrite <- headerAndBody_structure. unfold delimited at 1. cbn [map concat].
  by rewrite app_nil_r, <- app_assoc.
Qed.

(** C4, as the code has it: decoding a built message recovers, under its
    tag, every value written by the header or the body that does not hold
    the delimiter byte; the other fields may hold anything. *)
Theorem C4_roundtrip_of_delimiter_free_values
    mt cfg v sequenceNumber nowBody nowHeader (tag : Z) (value : bytes) :
  In (tag, value) (writtenFields (message mt cfg v) sequenceNumber nowBody nowHeader) →
  SOH ∉ value →
  ∃ vs, parseFields (NewProtocol [SOH])
          (GetMessage (message mt cfg v) sequenceNumber nowBody nowHeader) !! tag = Some vs
        ∧ value ∈ vs.
Proof.
  intros Hin Hval. rewrite (GetMessage_delimited (NewProtocol [SOH])).
  apply decode_delimited; [done| |done].
  exact (writtenFields_tags _ _ _ _ (tag, value) Hin).
Qed.

Lemma C4_roundtrip_witness :
  (In (553, lit "user")
      (writtenFields (message (lit "A") sampleConfig (LogonRequest 0 true)) 1
         sampleTime sampleTime)
   ∧ SOH ∉ lit "user")
  ∧ ∃ vs, parseFields (NewProtocol [SOH])
            (GetMessage (message (lit "A") sampleConfig (LogonRequest 0 true)) 1
               sampleTime sampleTime) !! 553 = Some vs
          ∧ lit "user" ∈ vs.
Proof.
  assert (In (553, lit "user")
            (writtenFields (message (lit "A") sampleConfig (LogonRequest 0 true)) 1
               sampleTime sampleTime)) as Hin by (vm_compute; tauto).
  assert (SOH ∉ lit "user") as Hval by (by apply (bool_decide_unpack _); vm_compute).
  split; [done|].
  exact (C4_roundtrip_of_delimiter_free_values _ _ _ _ _ _ _ _ Hin Hval).
Defined.

(** C4 as stated fails: a user name holding the delimiter byte is written
    under tag 553 and is not among the values decoded under 553. *)
Lemma C4_counterexample_delimiter_in_value :
  ¬ (∀ mt cfg v sequenceNumber nowBody nowHeader (tag : Z) (value : bytes),
       In (tag, value)
          (writtenFields (message mt cfg v) sequenceNumber nowBody nowHeader) →
       ∃ vs, parseFields (NewProtocol [SOH])
               (GetMessage (message mt cfg v) sequenceNumber nowBody nowHeader) !! tag
             = Some vs
             ∧ value ∈ vs).
Proof.
  intros H.
  destruct (H (lit "A") splitUserConfig (LogonRequest 0 false) 1 sampleTime sampleTime
              553 [ "a"%char; SOH; "b"%char ]) as (vs & Hvs & Hin).
  - vm_compute. tauto.
  - assert (parseFields (NewProtocol [SOH])
              (GetMessage (message (lit "A") splitUserConfig (LogonRequest 0 false)) 1
                 sampleTime sampleTime) !! 553 = Some [ lit "a" ]) as Hrun
      by (vm_compute; reflexivity).
    rewrite Hrun in Hvs. injection Hvs as <-.
    apply list_elem_of_singleton in Hin. discriminate Hin.
Qed.

End RoundTrip.

(** ** The validator *)

Section Validator.

Lemma LastIndex_app x y substr :
  0 <= LastIndex y substr → LastIndex (x ++ y) substr = len x + LastIndex y substr.
Proof.
  intros Hy. induction x as [|c x IH]; [unfold len; simpl; lia|].
  change ((c :: x) ++ y) with (c :: (x ++ y)). cbn [LastIndex]. rewrite IH.
  assert ((0 <=? len x + LastIndex y substr) = true) as ->
    by (apply Z.leb_le; unfold len; lia).
  unfold len. simpl length. lia.
Qed.

(** How [validateChecksum] reads a message that ends with [10=], three
    digits and the delimiter. *)
Lemma validateChecksum_trailer pre c :
  0 <= c < 256 →
  let p := NewProtocol [SOH] in
  validateChecksum p ((pre ++ [SOH]) ++ lit "10=" ++ fmt03d c ++ [SOH])
  = if bool_decide (calculateChecksum p (pre ++ [SOH]) ≠ c)
    then Some (lit "checksum mismatch: expected "
               ++ itoa (calculateChecksum p (pre ++ [SOH]))
               ++ lit ", got " ++ itoa c)
    else None.
Proof.
  intros Hc p. destruct (fmt03d_facts c Hc) as (Hlen & _ & Hatoi & Hlast & Hidx).
  unfold validateChecksum.
  change (p_delimiter p ++ lit "10=") with (SOH :: lit "10=").
  change (p_delimiter p) with [SOH].
  replace ((pre ++ [SOH]) ++ lit "10=" ++ fmt03d c ++ [SOH])
    with (pre ++ (SOH :: lit "10=" ++ fmt03d c ++ [SOH]))
    by (by rewrite <- app_assoc).
  rewrite LastIndex_app by (rewrite Hlast; lia). rewrite Hlast, Z.add_0_r.
  rewrite bool_decide_eq_false_2 by (unfold len; lia).
  assert (sliceFrom (pre ++ SOH :: lit "10=" ++ fmt03d c ++ [SOH]) (len pre + 4)
          = fmt03d c ++ [SOH]) as Hfrom.
  { unfold sliceFrom, len.
    replace (Z.to_nat (Z.of_nat (length pre) + 4)) with (length pre + 4)%nat by lia.
    by rewrite <- drop_drop, drop_app_length. }
  rewrite Hfrom, Hidx. rewrite bool_decide_eq_false_2 by lia.
  unfold slice. replace (3 + (len pre + 4) - (len pre + 4)) with 3 by lia.
  fold (sliceFrom (pre ++ SOH :: lit "10=" ++ fmt03d c ++ [SOH]) (len pre + 4)).
  rewrite Hfrom. change (Z.to_nat 3) with 3%nat.
  rewrite <- Hlen at 1. rewrite take_app_length, Hatoi.
  assert (sliceTo (pre ++ SOH :: lit "10=" ++ fmt03d c ++ [SOH]) (len pre + 1)
          = pre ++ [SOH]) as ->.
  { unfold sliceTo, len.
    replace (Z.to_nat (Z.of_nat (length pre) + 1)) with (length (pre ++ [SOH]))
      by (rewrite length_app; simpl; lia).
    change (SOH :: lit "10=" ++ fmt03d c ++ [SOH])
      with ([SOH] ++ (lit "10=" ++ fmt03d c ++ [SOH])).
    by rewrite app_assoc, take_app_length. }
  reflexivity.
Qed.

Lemma ValidateMessage_checks p message :
  message ≠ [] →
  is_Some (parseFields p message !! 8) → is_Some (parseFields p message !! 9) →
  is_Some (parseFields p message !! 35) → is_Some (parseFields p message !! 10) →
  ValidateMessage p message
  = match validateChecksum p message with
    | Some err => Some (lit "checksum validation failed: " ++ err)
    | None => None
    end.
Proof.
  intros Hne [? H8] [? H9] [? H35] [? H10]. unfold ValidateMessage.
  rewrite bool_decide_eq_false_2 by done.
  rewrite H8, H9, H35, H10.
  by rewrite !bool_decide_eq_false_2 by done.
Qed.

(** A delimited list of fields closed by a trailer [10=NNN]: the outcome
    of the validation when the fields include 8, 9 and 35. *)
Lemma ValidateMessage_delimited (fields : list (Z * bytes)) c v8 v9 v35 :
  In (8, v8) fields → In (9, v9) fields → In (35, v35) fields → 0 <= c < 256 →
  let p := NewProtocol [SOH] in
  let prefix := delimited SOH (map encodeField fields) in
  ValidateMessage p (prefix ++ lit "10=" ++ fmt03d c ++ [SOH])
  = if bool_decide (byteSum prefix mod 256 ≠ c)
    then Some (lit "checksum validation failed: checksum mismatch: expected "
               ++ itoa (byteSum prefix mod 256) ++ lit ", got " ++ itoa c)
    else None.
Proof.
  intros H8 H9 H35 Hc p prefix.
  assert (prefix ++ lit "10=" ++ fmt03d c ++ [SOH]
          = delimited SOH (map encodeField (fields ++ [(10, fmt03d c)]) ++ [])) as Hshape.
  { rewrite app_nil_r, map_app, delimited_app. unfold delimited at 2.
    cbn [map concat encodeField fst snd]. rewrite app_nil_r.
    unfold prefix, encodeField. cbn [fst snd]. by rewrite <- app_assoc. }
  assert (∃ pre, prefix = pre ++ [SOH]) as [pre Hpre].
  { unfold prefix. destruct fields as [|f fields]; [done|].
    clear. revert f. induction fields as [|g fields IH]; intros f.
    - exists (encodeField f). unfold delimited. simpl. by rewrite app_nil_r.
    - destruct (IH g) as [pre Hpre]. exists (encodeField f ++ SOH :: pre).
      change (map encodeField (f :: g :: fields))
        with (encodeField f :: map encodeField (g :: fields)).
      rewrite delimited_cons, Hpre. by rewrite <- app_assoc. }
  rewrite ValidateMessage_checks.
  - rewrite Hpre, validateChecksum_trailer by done.
    rewrite (calculateChecksum_byteSum (NewProtocol [SOH])).
    by case_bool_decide.
  - rewrite Hpre. by destruct pre.
  - rewrite Hshape. apply (decode_delimited_key _ _ 8 v8); [|done].
    apply in_or_app. by left.
  - rewrite Hshape. apply (decode_delimited_key _ _ 9 v9); [|done].
    apply in_or_app. by left.
  - rewrite Hshape. apply (decode_delimited_key _ _ 35 v35); [|done].
    apply in_or_app. by left.
  - rewrite Hshape. apply (decode_delimited_key _ _ 10 (fmt03d c)); [|done].
    apply in_or_app. right. by left.
Qed.

Lemma writtenFields_mandatory m sequenceNumber nowBody nowHeader :
  ∃ v8 v9 v35,
    In (8, v8) (writtenFields m sequenceNumber nowBody nowHeader)
    ∧ In (9, v9) (writtenFields m sequenceNumber nowBody nowHeader)
    ∧ In (35, v35) (writtenFields m sequenceNumber nowBody nowHeader).
Proof.
  do 3 eexists. unfold writtenFields, headerPairs. cbn [app In].
  split; [by left|]. split; [right; by left|]. right; right; by left.
Qed.

(** A built message whose three checksum digits are replaced by those of
    [c]. *)
Lemma ValidateMessage_built mt cfg v sequenceNumber nowBody nowHeader c :
  0 <= c < 256 →
  let headerAndBody := headerAndBodyOf (message mt cfg v) sequenceNumber nowBody nowHeader in
  ValidateMessage (NewProtocol [SOH]) (headerAndBody ++ lit "10=" ++ fmt03d c ++ [SOH])
  = if bool_decide (byteSum headerAndBody mod 256 ≠ c)
    then Some (lit "checksum validation failed: checksum mismatch: expected "
               ++ itoa (byteSum headerAndBody mod 256) ++ lit ", got " ++ itoa c)
    else None.
Proof.
  intros Hc hb. unfold hb. rewrite headerAndBody_structure.
  destruct (writtenFields_mandatory (message mt cfg v) sequenceNumber nowBody nowHeader)
    as (v8 & v9 & v35 & H8 & H9 & H35).
  by apply (ValidateMessage_delimited _ c v8 v9 v35).
Qed.

Ltac distinct_texts :=
  repeat (apply NoDup_cons; split;
          [ let H := fresh in
            intros H;
            repeat (apply elem_of_cons in H as [H|H]; [discriminate H|]);
            by apply elem_of_nil in H
          | ]);
  apply NoDup_nil; done.

(** C5: the outcomes of [ValidateMessage].  An empty message, and a
    message in which 8, 9, 35 or 10 is the first mandatory tag without a
    value, each get an error text of their own; a message made of fields
    that include 8, 9 and 35 and closed by [10=NNN] with [NNN] other than
    the byte sum modulo 256 of what precedes gets the checksum-mismatch
    error, and so does any built message whose checksum digits are altered;
    every built message, a Logon among them, passes. *)
Theorem C5_ValidateMessage_outcomes :
  (∀ p, ValidateMessage p [] = Some (lit "message is empty"))
  ∧ (∀ p message, message ≠ [] →
       parseFields p message !! 8 = None →
       ValidateMessage p message = Some (lit "missing BeginString field (8)"))
  ∧ (∀ p message, message ≠ [] →
       is_Some (parseFields p message !! 8) →
       parseFields p message !! 9 = None →
       ValidateMessage p message = Some (lit "missing BodyLength field (9)"))
  ∧ (∀ p message, message ≠ [] →
       is_Some (parseFields p message !! 8) → is_Some (parseFields p message !! 9) →
       parseFields p message !! 35 = None →
       ValidateMessage p message = Some (lit "missing MsgType field (35)"))
  ∧ (∀ p message, message ≠ [] →
       is_Some (parseFields p message !! 8) → is_Some (parseFields p message !! 9) →
       is_Some (parseFields p message !! 35) →
       parseFields p message !! 10 = None →
       ValidateMessage p message = Some (lit "missing Checksum field (10)"))
  ∧ (∀ (fields : list (Z * bytes)) c v8 v9 v35,
       In (8, v8) fields → In (9, v9) fields → In (35, v35) fields →
       0 <= c < 256 →
       c ≠ byteSum (delimited SOH (map encodeField fields)) mod 256 →
       ValidateMessage (NewProtocol [SOH])
         (delimited SOH (map encodeField fields) ++ lit "10=" ++ fmt03d c ++ [SOH])
       = Some (lit "checksum validation failed: checksum mismatch: expected "
               ++ itoa (byteSum (delimited SOH (map encodeField fields)) mod 256)
               ++ lit ", got " ++ itoa c))
  ∧ (∀ mt cfg v sequenceNumber nowBody nowHeader c,
       let headerAndBody :=
         headerAndBodyOf (message mt cfg v) sequenceNumber nowBody nowHeader in
       0 <= c < 256 →
       c ≠ byteSum headerAndBody mod 256 →
       ValidateMessage (NewProtocol [SOH])
         (headerAndBody ++ lit "10=" ++ fmt03d c ++ [SOH])
       = Some (lit "checksum validation failed: checksum mismatch: expected "
               ++ itoa (byteSum headerAndBody mod 256) ++ lit ", got " ++ itoa c))
  ∧ (∀ mt cfg v sequenceNumber nowBody nowHeader,
       ValidateMessage (NewProtocol [SOH])
         (GetMessage (message mt cfg v) sequenceNumber nowBody nowHeader) = None)
  ∧ (∀ detail : error,
       NoDup [ lit "message is empty";
               lit "missing BeginString field (8)";
               lit "missing BodyLength field (9)";
               lit "missing MsgType field (35)";
               lit "missing Checksum field (10)";
               lit "checksum validation failed: " ++ detail ]).
Proof.
  split; [done|]. split; [|split; [|split; [|split; [|split; [|split; [|split]]]]]].
  - intros p message Hne H8. unfold ValidateMessage.
    rewrite bool_decide_eq_false_2 by done. by rewrite H8.
  - intros p message Hne [? H8] H9. unfold ValidateMessage.
    rewrite bool_decide_eq_false_2 by done. by rewrite H8, H9.
  - intros p message Hne [? H8] [? H9] H35. unfold ValidateMessage.
    rewrite bool_decide_eq_false_2 by done. by rewrite H8, H9, H35.
  - intros p message Hne [? H8] [? H9] [? H35] H10. unfold ValidateMessage.
    rewrite bool_decide_eq_false_2 by done. by rewrite H8, H9, H35, H10.
  - intros fields c v8 v9 v35 H8 H9 H35 Hc Hdiff.
    rewrite (ValidateMessage_delimited fields c v8 v9 v35) by done.
    by rewrite bool_decide_eq_true_2 by (intros E; by apply Hdiff).
  - intros mt cfg v sequenceNumber nowBody nowHeader c hb Hc Hdiff.
    unfold hb. rewrite ValidateMessage_built by done.
    by rewrite bool_decide_eq_true_2 by (intros E; by apply Hdiff).
  - intros mt cfg v sequenceNumber nowBody nowHeader.
    rewrite (GetMessage_structure (NewProtocol [SOH])).
    rewrite ValidateMessage_built by apply calculateChecksum_range.
    rewrite bool_decide_eq_false_2; [done|].
    rewrite calculateChecksum_byteSum. by intros H.
  - intros detail. distinct_texts.
Qed.

Lemma C5_ValidateMessage_witness :
  (headlessMessage ≠ [] ∧ parseFields (NewProtocol [SOH]) headlessMessage !! 8 = None)
  ∧ ValidateMessage (NewProtocol [SOH]) headlessMessage
    = Some (lit "missing BeginString field (8)").
Proof.
  assert (headlessMessage ≠ []) as Hne by (vm_compute; discriminate).
  assert (parseFields (NewProtocol [SOH]) headlessMessage !! 8 = None) as H8
    by (vm_compute; reflexivity).
  split; [exact (conj Hne H8)|].
  exact (proj1 (proj2 C5_ValidateMessage_outcomes) (NewProtocol [SOH]) headlessMessage Hne H8).
Defined.

(** C10: a message that is not empty, has values under 8, 9, 35 and 10 and
    passes [validateChecksum] passes [ValidateMessage]: the value under 9
    takes no part. *)
Theorem C10_BodyLength_not_compared p message :
  message ≠ [] →
  is_Some (parseFields p message !! 8) → is_Some (parseFields p message !! 9) →
  is_Some (parseFields p message !! 35) → is_Some (parseFields p message !! 10) →
  validateChecksum p message = None →
  ValidateMessage p message = None.
Proof.
  intros Hne H8 H9 H35 H10 Hsum.
  by rewrite ValidateMessage_checks, Hsum.
Qed.

Lemma C10_BodyLength_witness :
  (wrongLengthMessage ≠ []
   ∧ is_Some (parseFields (NewProtocol [SOH]) wrongLengthMessage !! 8)
   ∧ parseFields (NewProtocol [SOH]) wrongLengthMessage !! 9 = Some [ lit "999" ]
   ∧ is_Some (parseFields (NewProtocol [SOH]) wrongLengthMessage !! 35)
   ∧ is_Some (parseFields (NewProtocol [SOH]) wrongLengthMessage !! 10)
   ∧ validateChecksum (NewProtocol [SOH]) wrongLengthMessage = None)
  ∧ ValidateMessage (NewProtocol [SOH]) wrongLengthMessage = None.
Proof.
  assert (wrongLengthMessage ≠ []) as Hne by (vm_compute; discriminate).
  assert (is_Some (parseFields (NewProtocol [SOH]) wrongLengthMessage !! 8)) as H8
    by (vm_compute; eexists; reflexivity).
  assert (parseFields (NewProtocol [SOH]) wrongLengthMessage !! 9 = Some [ lit "999" ]) as H9
    by (vm_compute; reflexivity).
  assert (is_Some (parseFields (NewProtocol [SOH]) wrongLengthMessage !! 35)) as H35
    by (vm_compute; eexists; reflexivity).
  assert (is_Some (parseFields (NewProtocol [SOH]) wrongLengthMessage !! 10)) as H10
    by (vm_compute; eexists; reflexivity).
  assert (validateChecksum (NewProtocol [SOH]) wrongLengthMessage = None) as Hsum
    by (vm_compute; reflexivity).
  split; [exact (conj Hne (conj H8 (conj H9 (conj H35 (conj H10 Hsum)))))|].
  exact (C10_BodyLength_not_compared _ _ Hne H8 (mk_is_Some _ _ H9) H35 H10 Hsum).
Defined.

End Validator.

(** ** Decimal texts *)

Section Decimal.

Lemma parseDigits_uint acc u :
  parseDigits acc (lit (NilEmpty.string_of_uint u)) = Some (uintValue acc u).
Proof. revert acc. induction u; intros acc; simpl; try done; apply IHu. Qed.

Lemma of_uint_acc_value u acc :
  Z.pos (Pos.of_uint_acc u acc) = uintValue (Z.pos acc) u.
Proof.
  revert acc. induction u; intros acc; simpl; try done; rewrite IHu; f_equal; lia.
Qed.

Lemma of_uint_value u : Z.of_N (Pos.of_uint u) = uintValue 0 u.
Proof.
  induction u; simpl; try done; apply of_uint_acc_value.
Qed.

Lemma to_uint_not_Nil p : Pos.to_uint p ≠ Decimal.Nil.
Proof.
  intros H. pose proof (DecimalPos.Unsigned.of_to p) as Hp.
  rewrite H in Hp. discriminate Hp.
Qed.

Lemma parseDigits_pos p :
  parseDigits 0 (lit (NilZero.string_of_uint (Pos.to_uint p))) = Some (Z.pos p).
Proof.
  unfold NilZero.string_of_uint. pose proof (to_uint_not_Nil p) as Hnil.
  assert (parseDigits 0 (lit (NilEmpty.string_of_uint (Pos.to_uint p))) = Some (Z.pos p))
    as Hrun.
  { rewrite parseDigits_uint, <- of_uint_value, DecimalPos.Unsigned.of_to. done. }
  by destruct (Pos.to_uint p).
Qed.

(** The first character of the digits of a positive number is a digit. *)
Lemma pos_digits_head p :
  ∃ c rest, lit (NilZero.string_of_uint (Pos.to_uint p)) = c :: rest
            ∧ isDigit c = true.
Proof.
  pose proof (uint_digits (Pos.to_uint p)) as Hd.
  pose proof (to_uint_not_Nil p) as Hnil.
  unfold NilZero.string_of_uint.
  destruct (Pos.to_uint p); try done; simpl in *;
    apply Forall_cons in Hd as [Hc _]; eauto.
Qed.

(** [Atoi] reads back what [%d] prints, over the range of [int]. *)
Lemma Atoi_itoa z : - 2 ^ 63 <= z < 2 ^ 63 → Atoi (itoa z) = Some z.
Proof.
  intros Hz. destruct z as [|p|p].
  - reflexivity.
  - unfold itoa. cbn [Z.to_int NilZero.string_of_int].
    destruct (pos_digits_head p) as (c & rest & Heq & Hc).
    pose proof (parseDigits_pos p) as Hrun. rewrite Heq in Hrun.
    unfold Atoi. rewrite Heq.
    assert (Ascii.eqb c "+" = false) as ->
      by (apply Ascii.eqb_neq; intros ->; discriminate Hc).
    assert (Ascii.eqb c "-" = false) as ->
      by (apply Ascii.eqb_neq; intros ->; discriminate Hc).
    rewrite Hrun.
    assert (((- 2 ^ 63 <=? Z.pos p) && (Z.pos p <? 2 ^ 63)) = true) as ->; [|done].
    apply andb_true_intro. split; [apply Z.leb_le|apply Z.ltb_lt]; lia.
  - unfold itoa. cbn [Z.to_int NilZero.string_of_int].
    destruct (pos_digits_head p) as (c & rest & Heq & Hc).
    pose proof (parseDigits_pos p) as Hrun.
    change (lit (String "-" (NilZero.string_of_uint (Pos.to_uint p))))
      with ("-"%char :: lit (NilZero.string_of_uint (Pos.to_uint p))).
    rewrite Heq in Hrun |- *.
    unfold Atoi. cbn [Ascii.eqb Bool.eqb]. rewrite Hrun.
    assert (((- 2 ^ 63 <=? - Z.pos p) && (- Z.pos p <? 2 ^ 63)) = true) as ->; [|done].
    apply andb_true_intro. split; [apply Z.leb_le|apply Z.ltb_lt]; lia.
Qed.

Lemma itoa_no_eq_sign z : "="%char ∉ itoa z.
Proof.
  intros Hin. pose proof (itoa_chars z) as H.
  rewrite Forall_forall in H. destruct (H _ Hin) as [Hd|Hd]; discriminate Hd.
Qed.

End Decimal.

(** ** Decoding an encoded list of fields *)

Section DecodeEncode.

Lemma encodeField_no_SOH f : SOH ∉ f.2 → SOH ∉ encodeField f.
Proof.
  intros Hv. unfold encodeField. rewrite elem_of_app, elem_of_cons.
  intros [H|[H|H]]; [by apply (itoa_no_SOH f.1)|discriminate H|done].
Qed.

Lemma splitOn_delimited_free d (fields : list bytes) :
  Forall (fun f => d ∉ f) fields → splitOn d (delimited d fields) = fields ++ [[]].
Proof.
  induction 1 as [|f fields Hf _ IH]; [done|].
  by rewrite delimited_cons, splitOn_first, IH.
Qed.

Lemma parsePart_nil fields : parsePart fields [] = fields.
Proof. done. Qed.

Lemma parsePart_field fields f :
  - 2 ^ 63 <= f.1 < 2 ^ 63 → parsePart fields (encodeField f) = addField fields f.
Proof.
  intros Hrange. unfold parsePart, encodeField, addField.
  rewrite bool_decide_eq_false_2 by (by destruct (itoa f.1)).
  change (lit "=") with ["="%char]. unfold Index.
  rewrite IndexFrom_first by apply itoa_no_eq_sign.
  rewrite bool_decide_eq_true_2 by (unfold len; lia).
  unfold sliceTo, sliceFrom, len.
  replace (Z.to_nat (0 + Z.of_nat (length (itoa f.1)))) with (length (itoa f.1)) by lia.
  replace (Z.to_nat (0 + Z.of_nat (length (itoa f.1)) + 1))
    with (length (itoa f.1) + 1)%nat by lia.
  rewrite take_app_length, Atoi_itoa by done.
  by rewrite <- drop_drop, drop_app_length.
Qed.

Lemma parse_encoded (fields : list (Z * bytes)) init :
  Forall (fun f => - 2 ^ 63 <= f.1 < 2 ^ 63) fields →
  fold_left parsePart (map encodeField fields) init = fold_left addField fields init.
Proof.
  intros Hall. revert init. induction Hall as [|f fields Hf _ IH]; intros init; [done|].
  simpl. by rewrite parsePart_field, IH.
Qed.

Lemma addField_fold_lookup (fields : list (Z * bytes)) init (tag : Z) :
  fold_left addField fields init !! tag
  = match valuesOf tag fields with
    | [] => init !! tag
    | vs => Some (default [] (init !! tag) ++ vs)
    end.
Proof.
  revert init. induction fields as [|f fields IH]; intros init; [done|].
  simpl. rewrite IH. unfold addField.
  case_bool_decide as Htag.
  - rewrite Htag, lookup_insert_eq. simpl.
    destruct (valuesOf tag fields); [done|]. by rewrite <- app_assoc.
  - by rewrite lookup_insert_ne by done.
Qed.

Lemma decode_encoded (fields : list (Z * bytes)) (tag : Z) :
  Forall (fun f => - 2 ^ 63 <= f.1 < 2 ^ 63 ∧ SOH ∉ f.2) fields →
  parseFields (NewProtocol [SOH]) (delimited SOH (map encodeField fields)) !! tag
  = grouped tag fields.
Proof.
  intros Hall. rewrite parseFields_SOH.
  rewrite splitOn_delimited_free.
  - rewrite fold_left_app. cbn [fold_left]. rewrite parsePart_nil.
    rewrite parse_encoded by (eapply Forall_impl; [exact Hall|by intros ? [? _]]).
    rewrite addField_fold_lookup, lookup_empty. unfold grouped.
    by destruct (valuesOf tag fields).
  - apply Forall_forall. intros part Hpart.
    apply list_elem_of_In, in_map_iff in Hpart as (f & <- & Hf).
    apply encodeField_no_SOH.
    rewrite Forall_forall in Hall. apply list_elem_of_In in Hf. by apply Hall.
Qed.

(** X1: decoding undoes encoding.  For a list of fields whose tags fit a Go
    [int] and whose values do not hold the delimiter, written each as
    [tag=value] and the delimiter, [parseFields] returns under every tag
    the values written under it, in the order written, and nothing under a
    tag that was not written. *)
Theorem parseFields_of_encoded_fields (fields : list (Z * bytes)) (tag : Z) :
  Forall (fun f => - 2 ^ 63 <= f.1 < 2 ^ 63 ∧ SOH ∉ f.2) fields →
  parseFields (NewProtocol [SOH]) (delimited SOH (map encodeField fields)) !! tag
  = grouped tag fields.
Proof. apply decode_encoded. Qed.

Lemma parseFields_of_encoded_fields_witness :
  Forall (fun f : Z * bytes => - 2 ^ 63 <= f.1 < 2 ^ 63 ∧ SOH ∉ f.2)
    [ (8, lit "FIX.4.4"); (268, lit "2"); (269, lit "0"); (269, lit "1") ]
  ∧ parseFields (NewProtocol [SOH])
      (delimited SOH (map encodeField
         [ (8, lit "FIX.4.4"); (268, lit "2"); (269, lit "0"); (269, lit "1") ])) !! 269
    = Some [ lit "0"; lit "1" ].
Proof.
  assert (Forall (fun f : Z * bytes => - 2 ^ 63 <= f.1 < 2 ^ 63 ∧ SOH ∉ f.2)
            [ (8, lit "FIX.4.4"); (268, lit "2"); (269, lit "0"); (269, lit "1") ]) as Hall.
  { repeat (apply Forall_cons; split;
            [split; [simpl; lia|by apply (bool_decide_unpack _); vm_compute]|]).
    apply Forall_nil. done. }
  split; [exact Hall|].
  exact (parseFields_of_encoded_fields _ 269 Hall).
Defined.

End DecodeEncode.

(** ** Decoding built messages *)

Section DecodeBuilt.

Lemma digits_no_SOH (s : bytes) : Forall (fun c => isDigit c = true) s → SOH ∉ s.
Proof.
  intros Hall Hin. rewrite Forall_forall in Hall. specialize (Hall _ Hin).
  discriminate Hall.
Qed.

Lemma zeroPad_digits w n : Forall (fun c => isDigit c = true) (zeroPad w n).
Proof.
  unfold zeroPad. apply Forall_app. split; [|apply utoa_digits].
  apply Forall_forall. intros c Hc. apply list_elem_of_In, repeat_spec in Hc. by subst.
Qed.

Lemma zeroPad_no_SOH w n : SOH ∉ zeroPad w n.
Proof. apply digits_no_SOH, zeroPad_digits. Qed.

Lemma utoa_no_SOH n : SOH ∉ utoa n.
Proof. apply digits_no_SOH, utoa_digits. Qed.

Lemma formatSeconds_no_SOH t : SOH ∉ formatSeconds t.
Proof.
  unfold formatSeconds.
  repeat (rewrite elem_of_app || rewrite elem_of_cons).
  pose proof (zeroPad_no_SOH 4 (year t)). pose proof (zeroPad_no_SOH 2 (month t)).
  pose proof (zeroPad_no_SOH 2 (day t)). pose proof (zeroPad_no_SOH 2 (hour t)).
  pose proof (zeroPad_no_SOH 2 (minute t)). pose proof (zeroPad_no_SOH 2 (second t)).
  intros H'. repeat (destruct H' as [H'|H']; try done).
Qed.

Lemma formatMillis_no_SOH t : SOH ∉ formatMillis t.
Proof.
  unfold formatMillis. rewrite elem_of_app, elem_of_cons.
  pose proof (formatSeconds_no_SOH t).
  pose proof (zeroPad_no_SOH 3 (nanosecond t / 1000000)%N).
  intros [H'|[H'|H']]; done.
Qed.

Lemma fixedDigits_no_SOH prec q : SOH ∉ fixedDigits prec q.
Proof.
  unfold fixedDigits. rewrite elem_of_app, elem_of_cons.
  pose proof (utoa_no_SOH (q / 10 ^ N.of_nat prec)%N).
  pose proof (zeroPad_no_SOH prec (q mod 10 ^ N.of_nat prec)%N).
  intros [H'|[H'|H']]; done.
Qed.

Lemma fmtFixed_no_SOH prec x : SOH ∉ fmtFixed prec x.
Proof.
  pose proof (fixedDigits_no_SOH prec) as Hd.
  destruct x as [s|s| |s m e]; unfold fmtFixed.
  - destruct s; simpl; [rewrite elem_of_cons; intros [H'|H']; [done|by apply (Hd 0%N)]|apply Hd].
  - destruct s; by apply (bool_decide_unpack _).
  - by apply (bool_decide_unpack _).
  - destruct s; simpl; [rewrite elem_of_cons; intros [H'|H']; [done|by eapply Hd]|apply Hd].
Qed.

Lemma fmt03d_no_SOH c : 0 <= c < 256 → SOH ∉ fmt03d c.
Proof.
  intros Hc. destruct (fmt03d_facts c Hc) as (_ & Hd & _).
  apply digits_no_SOH. apply Forall_forall. intros x Hx.
  rewrite forallb_forall in Hd. apply Hd. by apply list_elem_of_In.
Qed.

Lemma writtenFields_no_SOH m sequenceNumber nowBody nowHeader :
  delimiterFree m →
  Forall (fun f => SOH ∉ f.2) (writtenFields m sequenceNumber nowBody nowHeader).
Proof.
  unfold delimiterFree, textFields, writtenFields, headerPairs, bodyPairs.
  destruct m as [rm v]. cbn [base variant].
  pose proof itoa_no_SOH. pose proof formatMillis_no_SOH.
  pose proof formatSeconds_no_SOH. pose proof fmtFixed_no_SOH.
  intros Htext. rewrite !Forall_app in Htext. destruct Htext as [Hcfg Hvar].
  repeat (apply Forall_cons in Hcfg as [? Hcfg]).
  destruct v as [e r|t|t| |c sy si q o pr|o i c|? ? ? ? ? ? ?|r t sy|r i];
    cbn [variantTexts] in Hvar;
    repeat (apply Forall_cons in Hvar as [? Hvar]);
    try destruct r; try destruct (f64_nonzero pr); repeat case_bool_decide;
    cbn [app];
    repeat (constructor; [cbn [snd]; first [done|by apply (bool_decide_unpack _)]|]);
    constructor.
Qed.

Lemma writtenFields_range m sequenceNumber nowBody nowHeader :
  Forall (fun f => - 2 ^ 63 <= f.1 < 2 ^ 63)
    (writtenFields m sequenceNumber nowBody nowHeader).
Proof.
  unfold writtenFields, headerPairs, bodyPairs. destruct m as [rm v]. cbn [base variant].
  destruct v as [e r|t|t| |c sy si q o pr|o i c|? ? ? ? ? ? ?|r t sy|r i];
    try destruct r; try destruct (f64_nonzero pr); repeat case_bool_decide;
    cbn [app]; repeat (constructor; [cbn [fst]; lia|]); constructor.
Qed.

Lemma writtenFields_tags_NoDup m sequenceNumber nowBody nowHeader :
  NoDup (map fst (wireFields m sequenceNumber nowBody nowHeader)).
Proof.
  unfold wireFields, writtenFields, headerPairs, bodyPairs.
  destruct m as [rm v]. cbn [base variant].
  destruct v as [e r|t|t| |c sy si q o pr|o i c|? ? ? ? ? ? ?|r t sy|r i];
    try destruct r; try destruct (f64_nonzero pr); repeat case_bool_decide;
    cbn [app map fst]; by apply (bool_decide_unpack _).
Qed.

Lemma GetMessage_wireFields mt cfg v sequenceNumber nowBody nowHeader :
  let m := message mt cfg v in
  GetMessage m sequenceNumber nowBody nowHeader
  = delimited SOH (map encodeField (wireFields m sequenceNumber nowBody nowHeader)).
Proof.
  intros m. subst m. rewrite (GetMessage_delimited (NewProtocol [SOH])).
  unfold wireFields. rewrite map_app, calculateChecksum_byteSum. reflexivity.
Qed.

Lemma wireFields_wellformed mt cfg v sequenceNumber nowBody nowHeader :
  let m := message mt cfg v in
  delimiterFree m →
  Forall (fun f => - 2 ^ 63 <= f.1 < 2 ^ 63 ∧ SOH ∉ f.2)
    (wireFields m sequenceNumber nowBody nowHeader).
Proof.
  intros m Hfree. unfold wireFields. apply Forall_app. split.
  - pose proof (writtenFields_range m sequenceNumber nowBody nowHeader) as Hr.
    pose proof (writtenFields_no_SOH m sequenceNumber nowBody nowHeader Hfree) as Hs.
    rewrite Forall_forall in Hr, Hs. apply Forall_forall. intros f Hf.
    split; [by apply Hr|by apply Hs].
  - constructor; [|constructor]. cbn [fst snd]. split; [lia|].
    apply fmt03d_no_SOH. apply Z.mod_pos_bound. lia.
Qed.

Lemma decode_built mt cfg v sequenceNumber nowBody nowHeader (tag : Z) :
  let m := message mt cfg v in
  delimiterFree m →
  parseFields (NewProtocol [SOH]) (GetMessage m sequenceNumber nowBody nowHeader) !! tag
  = grouped tag (wireFields m sequenceNumber nowBody nowHeader).
Proof.
  intros m Hfree. subst m. rewrite GetMessage_wireFields.
  apply decode_encoded. by apply wireFields_wellformed.
Qed.

Lemma valuesOf_absent (tag : Z) (fields : list (Z * bytes)) :
  tag ∉ map fst fields → valuesOf tag fields = [].
Proof.
  induction fields as [|f fields IH]; intros Hno; [done|].
  cbn [map] in Hno. apply not_elem_of_cons in Hno as [Hne Hno].
  simpl. rewrite bool_decide_eq_false_2 by congruence. by apply IH.
Qed.

Lemma valuesOf_unique (tag : Z) value (fields : list (Z * bytes)) :
  NoDup (map fst fields) → In (tag, value) fields → valuesOf tag fields = [value].
Proof.
  induction fields as [|f fields IH]; intros Hnd Hin; [done|].
  cbn [map] in Hnd. apply NoDup_cons in Hnd as [Hhead Hnd].
  destruct Hin as [->|Hin].
  - simpl. rewrite bool_decide_eq_true_2 by done.
    by rewrite valuesOf_absent.
  - simpl. rewrite bool_decide_eq_false_2.
    + by apply IH.
    + intros Heq. apply Hhead. apply list_elem_of_In, in_map_iff.
      exists (tag, value). by rewrite Heq.
Qed.

End DecodeBuilt.

(** ** What a receiver reads from a built message *)

Section Receiver.

Lemma NewResponseMessage_fields message :
  resp_fields (NewResponseMessage message [SOH]) = parseFields (NewProtocol [SOH]) message.
Proof. reflexivity. Qed.

Lemma decoded_value mt cfg v sequenceNumber nowBody nowHeader (tag : Z) value :
  let m := message mt cfg v in
  delimiterFree m →
  In (tag, value) (wireFields m sequenceNumber nowBody nowHeader) →
  parseFields (NewProtocol [SOH]) (GetMessage m sequenceNumber nowBody nowHeader) !! tag
  = Some [value].
Proof.
  intros m Hfree Hin. subst m. rewrite decode_built by done. unfold grouped.
  by rewrite (valuesOf_unique tag value) by (apply writtenFields_tags_NoDup || done).
Qed.

Lemma decoded_absent mt cfg v sequenceNumber nowBody nowHeader (tag : Z) :
  let m := message mt cfg v in
  delimiterFree m →
  tag ∉ map fst (wireFields m sequenceNumber nowBody nowHeader) →
  parseFields (NewProtocol [SOH]) (GetMessage m sequenceNumber nowBody nowHeader) !! tag
  = None.
Proof.
  intros m Hfree Hno. subst m. rewrite decode_built by done. unfold grouped.
  by rewrite valuesOf_absent.
Qed.

(** X2: build, decode, read.  When no text of the message holds the
    delimiter, [GetFieldValue] on the decoded built message returns, for
    every field of the header, the body and the trailer, exactly the one
    value written under its tag, and [nil] for every tag the message did not
    write. *)
Theorem GetFieldValue_of_built_message
    mt cfg v sequenceNumber nowBody nowHeader (tag : Z) :
  let m := message mt cfg v in
  let received :=
    NewResponseMessage (GetMessage m sequenceNumber nowBody nowHeader) [SOH] in
  delimiterFree m →
  (∀ value, In (tag, value) (wireFields m sequenceNumber nowBody nowHeader) →
            GetFieldValue received tag = OneValue value)
  ∧ (tag ∉ map fst (wireFields m sequenceNumber nowBody nowHeader) →
     GetFieldValue received tag = NoValue).
Proof.
  intros m received Hfree. subst received m. unfold GetFieldValue.
  rewrite NewResponseMessage_fields. split.
  - intros value Hin. by rewrite (decoded_value mt cfg v _ _ _ tag value).
  - intros Hno. by rewrite decoded_absent.
Qed.

Lemma GetFieldValue_of_built_message_witness :
  delimiterFree (message (lit "A") sampleConfig (LogonRequest 0 true))
  ∧ GetFieldValue
      (NewResponseMessage
         (GetMessage (message (lit "A") sampleConfig (LogonRequest 0 true)) 7
            sampleTime sampleTime) [SOH]) 553
    = OneValue (lit "user").
Proof.
  assert (delimiterFree (message (lit "A") sampleConfig (LogonRequest 0 true))) as Hfree.
  { unfold delimiterFree. cbn.
    repeat (constructor; [by apply (bool_decide_unpack _)|]). constructor. }
  split; [exact Hfree|].
  apply (proj1 (GetFieldValue_of_built_message (lit "A") sampleConfig (LogonRequest 0 true)
                  7 sampleTime sampleTime 553 Hfree)).
  vm_compute. tauto.
Defined.

(** X3: the message type survives the round trip: [GetMessageType] of the
    decoded built message is the type the message was made with. *)
Theorem GetMessageType_of_built_message mt cfg v sequenceNumber nowBody nowHeader :
  let m := message mt cfg v in
  delimiterFree m →
  GetMessageType
    (NewResponseMessage (GetMessage m sequenceNumber nowBody nowHeader) [SOH])
  = mt.
Proof.
  intros m Hfree. subst m. unfold GetMessageType. rewrite NewResponseMessage_fields.
  rewrite (decoded_value mt cfg v _ _ _ 35 mt); [done|done|].
  unfold wireFields, writtenFields, headerPairs. cbn [app In].
  right. right. by left.
Qed.

Lemma GetMessageType_of_built_message_witness :
  delimiterFree (NewLogoutRequest sampleConfig)
  ∧ GetMessageType
      (NewResponseMessage (GetMessage (NewLogoutRequest sampleConfig) 3
                             sampleTime sampleTime) [SOH])
    = lit "5".
Proof.
  assert (delimiterFree (NewLogoutRequest sampleConfig)) as Hfree.
  { unfold delimiterFree. cbn.
    repeat (constructor; [by apply (bool_decide_unpack _)|]). constructor. }
  split; [exact Hfree|].
  exact (GetMessageType_of_built_message (lit "5") sampleConfig LogoutRequest 3
           sampleTime sampleTime Hfree).
Defined.

End Receiver.

(** ** Conditional body fields, as a receiver sees them *)

Section ConditionalFields.

Ltac field_written :=
  unfold wireFields, writtenFields, headerPairs, bodyPairs;
  cbn [message variant base];
  repeat match goal with
         | E : _ = _ |- _ => rewrite E
         end;
  try rewrite bool_decide_eq_true_2 by done;
  cbn [app In]; repeat first [by left | right].

Ltac field_not_written :=
  unfold wireFields, writtenFields, headerPairs, bodyPairs;
  cbn [message variant base];
  repeat match goal with
         | E : _ = _ |- _ => rewrite E
         end;
  try rewrite bool_decide_eq_false_2 by (intros Hne; by apply Hne);
  cbn [app map fst]; by apply (bool_decide_unpack _).

(** X4: the Price field of an order.  Whatever the order type, a receiver
    of the built NewOrder message reads tag 44 exactly when [Price != 0],
    and then reads the price with five decimals. *)
Theorem OrderMsg_Price_written_iff_nonzero
    mt cfg ClOrdID Symbol Side OrderQty OrdType Price sequenceNumber nowBody nowHeader :
  let m := message mt cfg (OrderMsg ClOrdID Symbol Side OrderQty OrdType Price) in
  delimiterFree m →
  GetFieldValue
    (NewResponseMessage (GetMessage m sequenceNumber nowBody nowHeader) [SOH]) 44
  = if f64_nonzero Price then OneValue (fmtFixed 5 Price) else NoValue.
Proof.
  intros m Hfree. subst m. unfold GetFieldValue. rewrite NewResponseMessage_fields.
  destruct (f64_nonzero Price) eqn:E.
  - rewrite (decoded_value _ _ _ _ _ _ 44 (fmtFixed 5 Price)); [done|done|].
    field_written.
  - rewrite decoded_absent; [done|done|]. field_not_written.
Qed.

Lemma OrderMsg_Price_witness :
  delimiterFree
    (message (lit "D") sampleConfig
       (OrderMsg (lit "O1") (lit "EURUSD") (lit "1")
          (S754_finite false 7205759403792794 (-56)) (lit "1")
          (S754_finite false 3 (-1))))
  ∧ GetFieldValue
      (NewResponseMessage
         (GetMessage
            (message (lit "D") sampleConfig
               (OrderMsg (lit "O1") (lit "EURUSD") (lit "1")
                  (S754_finite false 7205759403792794 (-56)) (lit "1")
                  (S754_finite false 3 (-1)))) 1 sampleTime sampleTime) [SOH]) 44
    = OneValue (lit "1.50000").
Proof.
  assert (delimiterFree
            (message (lit "D") sampleConfig
               (OrderMsg (lit "O1") (lit "EURUSD") (lit "1")
                  (S754_finite false 7205759403792794 (-56)) (lit "1")
                  (S754_finite false 3 (-1))))) as Hfree.
  { unfold delimiterFree. cbn.
    repeat (constructor; [by apply (bool_decide_unpack _)|]). constructor. }
  split; [exact Hfree|].
  exact (OrderMsg_Price_written_iff_nonzero (lit "D") sampleConfig (lit "O1")
           (lit "EURUSD") (lit "1") (S754_finite false 7205759403792794 (-56)) (lit "1")
           (S754_finite false 3 (-1)) 1 sampleTime sampleTime Hfree).
Defined.

(** X5: the optional string fields.  A receiver of the built message reads
    TestReqID (112) of a Heartbeat, OrderID (37) of an OrderCancelRequest,
    Symbol (55) of a SecurityListRequest and PosMaintRptID (721) of a
    RequestForPositions exactly when the field is not the empty string; the
    TestReqID of a TestRequest, a required field, is read even when it is
    empty. *)
Theorem optional_fields_written_iff_nonempty mt cfg sequenceNumber nowBody nowHeader :
  let read v tag :=
    GetFieldValue
      (NewResponseMessage
         (GetMessage (message mt cfg v) sequenceNumber nowBody nowHeader) [SOH]) tag in
  (∀ TestReqID, delimiterFree (message mt cfg (Heartbeat TestReqID)) →
     read (Heartbeat TestReqID) 112
     = if bool_decide (TestReqID = []) then NoValue else OneValue TestReqID)
  ∧ (∀ OrigClOrdID OrderID ClOrdID,
       delimiterFree (message mt cfg (OrderCancelRequest OrigClOrdID OrderID ClOrdID)) →
       read (OrderCancelRequest OrigClOrdID OrderID ClOrdID) 37
       = if bool_decide (OrderID = []) then NoValue else OneValue OrderID)
  ∧ (∀ SecurityReqID SecurityListRequestType Symbol,
       delimiterFree
         (message mt cfg (SecurityListRequest SecurityReqID SecurityListRequestType Symbol)) →
       read (SecurityListRequest SecurityReqID SecurityListRequestType Symbol) 55
       = if bool_decide (Symbol = []) then NoValue else OneValue Symbol)
  ∧ (∀ PosReqID PosMaintRptID,
       delimiterFree (message mt cfg (RequestForPositions PosReqID PosMaintRptID)) →
       read (RequestForPositions PosReqID PosMaintRptID) 721
       = if bool_decide (PosMaintRptID = []) then NoValue else OneValue PosMaintRptID)
  ∧ (∀ TestReqID, delimiterFree (message mt cfg (TestRequest TestReqID)) →
       read (TestRequest TestReqID) 112 = OneValue TestReqID).
Proof.
  intros read. subst read. cbv beta. unfold GetFieldValue.
  split; [|split; [|split; [|split]]].
  - intros t Hfree. rewrite NewResponseMessage_fields. case_bool_decide as E.
    + rewrite decoded_absent; [done|done|]. field_not_written.
    + rewrite (decoded_value _ _ _ _ _ _ 112 t); [done|done|].
      unfold wireFields, writtenFields, headerPairs, bodyPairs.
      cbn [message variant base]. rewrite bool_decide_eq_false_2 by done.
      cbn [app In]. repeat first [by left | right].
  - intros o i c Hfree. rewrite NewResponseMessage_fields. case_bool_decide as E.
    + rewrite decoded_absent; [done|done|].
      unfold wireFields, writtenFields, headerPairs, bodyPairs.
      cbn [message variant base]. rewrite bool_decide_eq_false_2 by (by intros Hne).
      cbn [app map fst]. by apply (bool_decide_unpack _).
    + rewrite (decoded_value _ _ _ _ _ _ 37 i); [done|done|].
      unfold wireFields, writtenFields, headerPairs, bodyPairs.
      cbn [message variant base]. rewrite bool_decide_eq_true_2 by done.
      cbn [app In]. repeat first [by left | right].
  - intros r t sy Hfree. rewrite NewResponseMessage_fields. case_bool_decide as E.
    + rewrite decoded_absent; [done|done|].
      unfold wireFields, writtenFields, headerPairs, bodyPairs.
      cbn [message variant base]. rewrite bool_decide_eq_false_2 by (by intros Hne).
      cbn [app map fst]. by apply (bool_decide_unpack _).
    + rewrite (decoded_value _ _ _ _ _ _ 55 sy); [done|done|].
      unfold wireFields, writtenFields, headerPairs, bodyPairs.
      cbn [message variant base]. rewrite bool_decide_eq_true_2 by done.
      cbn [app In]. repeat first [by left | right].
  - intros r i Hfree. rewrite NewResponseMessage_fields. case_bool_decide as E.
    + rewrite decoded_absent; [done|done|].
      unfold wireFields, writtenFields, headerPairs, bodyPairs.
      cbn [message variant base]. rewrite bool_decide_eq_false_2 by (by intros Hne).
      cbn [app map fst]. by apply (bool_decide_unpack _).
    + rewrite (decoded_value _ _ _ _ _ _ 721 i); [done|done|].
      unfold wireFields, writtenFields, headerPairs, bodyPairs.
      cbn [message variant base]. rewrite bool_decide_eq_true_2 by done.
      cbn [app In]. repeat first [by left | right].
  - intros t Hfree. rewrite NewResponseMessage_fields.
    rewrite (decoded_value _ _ _ _ _ _ 112 t); [done|done|].
    unfold wireFields, writtenFields, headerPairs, bodyPairs.
    cbn [message variant base app In]. repeat first [by left | right].
Qed.

Lemma optional_fields_witness :
  delimiterFree (message (lit "1") sampleConfig (TestRequest []))
  ∧ GetFieldValue
      (NewResponseMessage
         (GetMessage (message (lit "1") sampleConfig (TestRequest [])) 1
            sampleTime sampleTime) [SOH]) 112
    = OneValue [].
Proof.
  assert (delimiterFree (message (lit "1") sampleConfig (TestRequest []))) as Hfree.
  { unfold delimiterFree. cbn.
    repeat (constructor; [by apply (bool_decide_unpack _)|]). constructor. }
  split; [exact Hfree|].
  exact (proj2 (proj2 (proj2 (proj2
           (optional_fields_written_iff_nonempty (lit "1") sampleConfig 1
              sampleTime sampleTime)))) [] Hfree).
Defined.

End ConditionalFields.

(** ** The validator on built and on encoded messages *)

Section ValidatorExtras.

(** X6: every built message passes the validator, with the delimiter given
    or left to its default, whatever its fields hold, the delimiter byte
    included. *)
Theorem built_message_passes_validation mt cfg v sequenceNumber nowBody nowHeader :
  ValidateMessage (NewProtocol [SOH])
    (GetMessage (message mt cfg v) sequenceNumber nowBody nowHeader) = None
  ∧ ValidateMessage (NewProtocol [])
      (GetMessage (message mt cfg v) sequenceNumber nowBody nowHeader) = None.
Proof.
  assert (ValidateMessage (NewProtocol [SOH])
            (GetMessage (message mt cfg v) sequenceNumber nowBody nowHeader) = None) as H.
  { rewrite (GetMessage_structure (NewProtocol [SOH])).
    rewrite ValidateMessage_built by apply calculateChecksum_range.
    rewrite bool_decide_eq_false_2; [done|].
    rewrite calculateChecksum_byteSum. by intros Hne. }
  split; exact H.
Qed.

(** X7: a built message whose three checksum digits are replaced by those
    of another number below 256 fails with the checksum-mismatch error, which
    names the computed and the transmitted value; with the digits of the
    byte sum modulo 256 it passes. *)
Theorem altered_checksum_is_reported mt cfg v sequenceNumber nowBody nowHeader c :
  let headerAndBody := headerAndBodyOf (message mt cfg v) sequenceNumber nowBody nowHeader in
  0 <= c < 256 →
  ValidateMessage (NewProtocol [SOH]) (headerAndBody ++ lit "10=" ++ fmt03d c ++ [SOH])
  = if bool_decide (byteSum headerAndBody mod 256 ≠ c)
    then Some (lit "checksum validation failed: checksum mismatch: expected "
               ++ itoa (byteSum headerAndBody mod 256) ++ lit ", got " ++ itoa c)
    else None.
Proof. intros hb Hc. by apply ValidateMessage_built. Qed.

Lemma altered_checksum_witness :
  0 <= 47 < 256
  ∧ ValidateMessage (NewProtocol [SOH])
      (headerAndBodyOf (message (lit "A") sampleConfig (LogonRequest 0 false)) 1
         sampleTime sampleTime ++ lit "10=" ++ fmt03d 47 ++ [SOH])
    = if bool_decide
           (byteSum (headerAndBodyOf (message (lit "A") sampleConfig (LogonRequest 0 false))
                       1 sampleTime sampleTime) mod 256 ≠ 47)
      then Some (lit "checksum validation failed: checksum mismatch: expected "
                 ++ itoa (byteSum (headerAndBodyOf
                                     (message (lit "A") sampleConfig (LogonRequest 0 false))
                                     1 sampleTime sampleTime) mod 256)
                 ++ lit ", got " ++ itoa 47)
      else None.
Proof.
  assert (0 <= 47 < 256) as Hc by lia.
  split; [exact Hc|].
  exact (altered_checksum_is_reported (lit "A") sampleConfig (LogonRequest 0 false) 1
           sampleTime sampleTime 47 Hc).
Defined.

(** X8: what the validator does not check.  Any list of fields that has
    tags 8, 9 and 35 somewhere, in any order and with any values, passes once
    [10=] and the three digits of its byte sum modulo 256 are appended: the
    BodyLength value, the order of the fields and the other fields take no
    part. *)
Theorem validation_checks_presence_and_checksum_only
    (fields : list (Z * bytes)) v8 v9 v35 :
  In (8, v8) fields → In (9, v9) fields → In (35, v35) fields →
  let prefix := delimited SOH (map encodeField fields) in
  ValidateMessage (NewProtocol [SOH])
    (prefix ++ lit "10=" ++ fmt03d (byteSum prefix mod 256) ++ [SOH]) = None.
Proof.
  intros H8 H9 H35 prefix. unfold prefix.
  rewrite (ValidateMessage_delimited fields _ v8 v9 v35);
    [|done|done|done|apply Z.mod_pos_bound; lia].
  by rewrite bool_decide_eq_false_2 by (by intros Hne).
Qed.

Lemma validation_checks_presence_witness :
  (In (8, lit "x") [ (35, lit "ZZ"); (9, lit "-5"); (8, lit "x") ]
   ∧ In (9, lit "-5") [ (35, lit "ZZ"); (9, lit "-5"); (8, lit "x") ]
   ∧ In (35, lit "ZZ") [ (35, lit "ZZ"); (9, lit "-5"); (8, lit "x") ])
  ∧ ValidateMessage (NewProtocol [SOH])
      (delimited SOH (map encodeField [ (35, lit "ZZ"); (9, lit "-5"); (8, lit "x") ])
       ++ lit "10="
       ++ fmt03d (byteSum (delimited SOH
                    (map encodeField [ (35, lit "ZZ"); (9, lit "-5"); (8, lit "x") ]))
                  mod 256)
       ++ [SOH]) = None.
Proof.
  assert (In (8, lit "x") [ (35, lit "ZZ"); (9, lit "-5"); (8, lit "x") ]) as H8
    by (simpl; tauto).
  assert (In (9, lit "-5") [ (35, lit "ZZ"); (9, lit "-5"); (8, lit "x") ]) as H9
    by (simpl; tauto).
  assert (In (35, lit "ZZ") [ (35, lit "ZZ"); (9, lit "-5"); (8, lit "x") ]) as H35
    by (simpl; tauto).
  split; [exact (conj H8 (conj H9 H35))|].
  exact (validation_checks_presence_and_checksum_only _ _ _ _ H8 H9 H35).
Defined.

Lemma grouped_None (tag : Z) (fields : list (Z * bytes)) :
  grouped tag fields = None ↔ tag ∉ map fst fields.
Proof.
  unfold grouped. induction fields as [|f fields IH]; simpl.
  - split; [intros _; apply not_elem_of_nil|done].
  - rewrite not_elem_of_cons. case_bool_decide as E.
    + split; [done|]. intros [Hne _]. by destruct Hne.
    + rewrite IH. split; [intros H; split; [congruence|done]|by intros [_ H]].
Qed.

(** X9: which missing field is reported.  For a non-empty list of fields
    with tags in the range of [int] and values free of the delimiter, the
    validator names the first of 8, 9, 35 and 10 that no field carries;
    when all four are carried the outcome is that of the checksum
    comparison. *)
Theorem ValidateMessage_reports_first_missing_tag (fields : list (Z * bytes)) :
  fields ≠ [] →
  Forall (fun f => - 2 ^ 63 <= f.1 < 2 ^ 63 ∧ SOH ∉ f.2) fields →
  let tags := map fst fields in
  let message := delimited SOH (map encodeField fields) in
  ValidateMessage (NewProtocol [SOH]) message
  = if bool_decide (8 ∉ tags) then Some (lit "missing BeginString field (8)")
    else if bool_decide (9 ∉ tags) then Some (lit "missing BodyLength field (9)")
    else if bool_decide (35 ∉ tags) then Some (lit "missing MsgType field (35)")
    else if bool_decide (10 ∉ tags) then Some (lit "missing Checksum field (10)")
    else match validateChecksum (NewProtocol [SOH]) message with
         | Some err => Some (lit "checksum validation failed: " ++ err)
         | None => None
         end.
Proof.
  intros Hne Hall tags message. unfold ValidateMessage.
  rewrite bool_decide_eq_false_2.
  2:{ unfold message. destruct fields as [|f fields]; [done|].
      cbn [map]. rewrite delimited_cons. pose proof (encodeField_nonempty f).
      by destruct (encodeField f). }
  unfold message. rewrite !decode_encoded by done.
  rewrite !(bool_decide_ext _ _ (grouped_None _ fields)).
  reflexivity.
Qed.

Lemma ValidateMessage_first_missing_witness :
  ([ (35, lit "A"); (49, lit "SENDER") ] ≠ []
   ∧ Forall (fun f : Z * bytes => - 2 ^ 63 <= f.1 < 2 ^ 63 ∧ SOH ∉ f.2)
       [ (35, lit "A"); (49, lit "SENDER") ])
  ∧ ValidateMessage (NewProtocol [SOH])
      (delimited SOH (map encodeField [ (35, lit "A"); (49, lit "SENDER") ]))
    = Some (lit "missing BeginString field (8)").
Proof.
  assert ([ (35, lit "A"); (49, lit "SENDER") ] ≠ ([] : list (Z * bytes))) as Hne by done.
  assert (Forall (fun f : Z * bytes => - 2 ^ 63 <= f.1 < 2 ^ 63 ∧ SOH ∉ f.2)
            [ (35, lit "A"); (49, lit "SENDER") ]) as Hall.
  { repeat (constructor;
            [split; [simpl; lia|by apply (bool_decide_unpack _); vm_compute]|]).
    constructor. }
  split; [exact (conj Hne Hall)|].
  exact (ValidateMessage_reports_first_missing_tag _ Hne Hall).
Defined.

End ValidatorExtras.

(** ** The framer *)

Section Framer.

Lemma markerAt_head (suffix : bytes) :
  HasPrefix suffix (lit "10=") = true ↔ markerAt suffix 0.
Proof.
  unfold markerAt.
  destruct suffix as [|a [|b [|c rest]]]; simpl;
    try (split; [discriminate|intros (H1 & H2 & H3); discriminate]).
  - destruct (Ascii.eqb a "1") eqn:Ea; [|split; [discriminate|]].
    + split; [discriminate|intros (_ & H2 & _); discriminate].
    + intros (_ & H2 & _). discriminate.
  - destruct (Ascii.eqb a "1") eqn:Ea;
      [destruct (Ascii.eqb b "0") eqn:Eb|];
      split; try discriminate; intros (_ & _ & H3); discriminate.
  - destruct (Ascii.eqb a "1") eqn:Ea;
      [destruct (Ascii.eqb b "0") eqn:Eb;
       [destruct (Ascii.eqb c "=") eqn:Ec|]|].
    + apply Ascii.eqb_eq in Ea, Eb, Ec. subst. done.
    + apply Ascii.eqb_neq in Ec. split; [discriminate|].
      intros (_ & _ & H3). congruence.
    + apply Ascii.eqb_neq in Eb. split; [discriminate|].
      intros (_ & H2 & _). congruence.
    + apply Ascii.eqb_neq in Ea. split; [discriminate|].
      intros (H1 & _ & _). congruence.
Qed.

Lemma markerAt_tail c (suffix : bytes) k : markerAt (c :: suffix) (S k) ↔ markerAt suffix k.
Proof. done. Qed.

Lemma scan_first d tl (rest : bytes) j0 j :
  rest !! j = Some d → (∀ j', (j' < j)%nat → rest !! j' ≠ Some d) →
  scanDelimiter (d :: tl) rest j0 = Returns (Some (j0 + Z.of_nat j + 1)).
Proof.
  revert j0 j. induction rest as [|b rest IH]; intros j0 j Hj Hfirst; [done|].
  destruct j as [|j]; simpl in *.
  - injection Hj as ->. rewrite Ascii.eqb_refl. f_equal. f_equal. lia.
  - assert (Ascii.eqb b d = false) as ->.
    { apply Ascii.eqb_neq. intros ->. by apply (Hfirst 0%nat); [lia|]. }
    rewrite (IH (j0 + 1) j Hj).
    + f_equal. f_equal. lia.
    + intros j' Hlt. apply (Hfirst (S j')). lia.
Qed.

Lemma scan_none d tl (rest : bytes) j0 :
  (∀ j, rest !! j ≠ Some d) → scanDelimiter (d :: tl) rest j0 = Returns None.
Proof.
  revert j0. induction rest as [|b rest IH]; intros j0 Hno; [done|].
  simpl. assert (Ascii.eqb b d = false) as ->.
  { apply Ascii.eqb_neq. intros ->. by apply (Hno 0%nat). }
  apply IH. intros j. apply (Hno (S j)).
Qed.

Lemma scan_sound d tl (rest : bytes) j0 :
  match scanDelimiter (d :: tl) rest j0 with
  | Returns (Some r) =>
      ∃ j, rest !! j = Some d ∧ (∀ j', (j' < j)%nat → rest !! j' ≠ Some d)
           ∧ r = j0 + Z.of_nat j + 1
  | Returns None => ∀ j, rest !! j ≠ Some d
  | Panics => False
  end.
Proof.
  revert j0. induction rest as [|b rest IH]; intros j0; [done|].
  simpl. destruct (Ascii.eqb b d) eqn:E.
  - apply Ascii.eqb_eq in E as ->. exists 0%nat.
    split; [done|]. split; [intros; lia|lia].
  - apply Ascii.eqb_neq in E. specialize (IH (j0 + 1)).
    destruct (scanDelimiter (d :: tl) rest (j0 + 1)) as [[r|]|]; [| |done].
    + destruct IH as (j & Hj & Hfirst & ->). exists (S j).
      split; [done|]. split; [|lia].
      intros [|j'] Hlt; simpl; [congruence|apply Hfirst; lia].
    + intros [|j]; simpl; [congruence|apply IH].
Qed.

(** No marker with two bytes after it is followed by the delimiter: the
    search gives up. *)
Lemma findFrom_none d tl n (suffix : bytes) i :
  n = i + len suffix →
  (∀ k j, markerAt suffix k → Z.of_nat k < len suffix - 4 → (k + 3 ≤ j)%nat →
          suffix !! j ≠ Some d) →
  findFrom (d :: tl) n suffix i = Returns (-1).
Proof.
  revert i. induction suffix as [|c suffix IH]; intros i Hn Hno; [done|].
  assert (findFrom (d :: tl) n suffix (i + 1) = Returns (-1)) as Hrec.
  { apply IH; [unfold len in *; simpl length in Hn; lia|].
    intros k j Hk Hlt Hj. apply (Hno (S k) (S j)); [done| |lia].
    unfold len in *. simpl length. lia. }
  cbn [findFrom]. destruct (i <? n - 4) eqn:Hloop; [|done].
  apply Z.ltb_lt in Hloop.
  destruct (HasPrefix (c :: suffix) (lit "10=")) eqn:Hpre; [|done].
  apply markerAt_head in Hpre.
  rewrite scan_none; [done|].
  intros j. rewrite lookup_drop. apply (Hno 0%nat); [done|lia|lia].
Qed.

(** The first marker has two bytes after it and a delimiter at or after the
    third byte from its start: the search returns one past the first such
    delimiter. *)
Lemma findFrom_found d tl n (suffix : bytes) i k j :
  n = i + len suffix →
  firstMarkerAt suffix k → Z.of_nat k < len suffix - 4 →
  firstDelimiterFrom d suffix (k + 3) j →
  findFrom (d :: tl) n suffix i = Returns (i + Z.of_nat j + 1).
Proof.
  revert i k j. induction suffix as [|c suffix IH]; intros i k j Hn [Hk Hfirst] Hlt Hj.
  { destruct Hk as [Hk _]. done. }
  cbn [findFrom].
  assert ((i <? n - 4) = true) as -> by (apply Z.ltb_lt; lia).
  destruct Hj as (Hge & Hj & Hjfirst).
  destruct k as [|k].
  - apply markerAt_head in Hk. rewrite Hk.
    rewrite (scan_first d tl _ (i + 3) (j - 3)).
    + f_equal. lia.
    + rewrite lookup_drop. by replace (3 + (j - 3))%nat with j by lia.
    + intros j' Hlt'. rewrite lookup_drop. apply Hjfirst; lia.
  - assert (HasPrefix (c :: suffix) (lit "10=") = false) as ->.
    { destruct (HasPrefix (c :: suffix) (lit "10=")) eqn:Hpre; [|done].
      apply markerAt_head in Hpre. exfalso. apply (Hfirst 0%nat); [lia|done]. }
    destruct j as [|j]; [lia|].
    rewrite (IH (i + 1) k j).
    + f_equal. lia.
    + unfold len in *. simpl length in Hn. lia.
    + split; [done|]. intros k' Hk'. apply (Hfirst (S k')). lia.
    + unfold len in *. simpl length in Hlt. lia.
    + split; [lia|]. split; [done|].
      intros j' H1 H2. apply (Hjfirst (S j')); lia.
Qed.

(** Whatever the search returns other than [-1] is one past the first
    delimiter after the first marker. *)
Lemma findFrom_sound d tl n (suffix : bytes) i :
  n = i + len suffix →
  match findFrom (d :: tl) n suffix i with
  | Returns e =>
      e = -1
      ∨ ∃ k j, firstMarkerAt suffix k ∧ Z.of_nat k < len suffix - 4
               ∧ firstDelimiterFrom d suffix (k + 3) j ∧ e = i + Z.of_nat j + 1
  | Panics => False
  end.
Proof.
  revert i. induction suffix as [|c suffix IH]; intros i Hn; [by left|].
  assert (n = i + 1 + len suffix) as Hn' by (unfold len in *; simpl length in Hn; lia).
  specialize (IH (i + 1) Hn').
  assert (match findFrom (d :: tl) n suffix (i + 1) with
          | Returns e =>
              HasPrefix (c :: suffix) (lit "10=") = false →
              e = -1
              ∨ ∃ k j, firstMarkerAt (c :: suffix) k
                       ∧ Z.of_nat k < len (c :: suffix) - 4
                       ∧ firstDelimiterFrom d (c :: suffix) (k + 3) j
                       ∧ e = i + Z.of_nat j + 1
          | Panics => False
          end) as Hshift.
  { destruct (findFrom (d :: tl) n suffix (i + 1)) as [e|]; [|done].
    intros Hpre. destruct IH as [->|(k & j & [Hk Hfirst] & Hlt & (Hge & Hj & Hjfirst) & ->)];
      [by left|right].
    exists (S k), (S j). split; [|split; [|split]].
    - split; [done|]. intros [|k'] Hk'.
      + intros Hm. apply markerAt_head in Hm. congruence.
      + apply Hfirst. lia.
    - unfold len in *. simpl length. lia.
    - split; [lia|]. split; [done|].
      intros [|j'] H1 H2; [lia|]. apply Hjfirst; lia.
    - lia. }
  cbn [findFrom]. destruct (i <? n - 4) eqn:Hloop; [|by left].
  destruct (HasPrefix (c :: suffix) (lit "10=")) eqn:Hpre.
  - pose proof (scan_sound d tl (drop 3 (c :: suffix)) (i + 3)) as Hscan.
    destruct (scanDelimiter (d :: tl) (drop 3 (c :: suffix)) (i + 3)) as [[r|]|];
      [| |done].
    + destruct Hscan as (j & Hj & Hjfirst & ->). right.
      exists 0%nat, (3 + j)%nat. rewrite lookup_drop in Hj.
      split; [|split; [|split]].
      * split; [by apply markerAt_head|intros; lia].
      * apply Z.ltb_lt in Hloop. lia.
      * split; [lia|]. split; [done|].
        intros j' H1 H2. specialize (Hjfirst (j' - 3)%nat).
        rewrite lookup_drop in Hjfirst.
        replace (3 + (j' - 3))%nat with j' in Hjfirst by lia. apply Hjfirst. lia.
      * lia.
    + rewrite findFrom_none; [by left|done|].
      intros k j Hk Hlt Hj. specialize (Hscan (j - 2)%nat).
      rewrite lookup_drop in Hscan.
      replace (3 + (j - 2))%nat with (S j) in Hscan by lia. exact Hscan.
  - destruct (findFrom (d :: tl) n suffix (i + 1)) as [e|]; [|done].
    by apply Hshift.
Qed.

End Framer.

(** ** What [findMessageEnd] returns *)

Section FindMessageEnd.

Lemma findFrom_minus_one d tl n (suffix : bytes) i k j :
  0 <= i → n = i + len suffix →
  findFrom (d :: tl) n suffix i = Returns (-1) →
  markerAt suffix k → Z.of_nat k < len suffix - 4 → (k + 3 ≤ j)%nat →
  suffix !! j ≠ Some d.
Proof.
  revert i k j. induction suffix as [|c suffix IH]; intros i k j Hi Hn Hrun Hk Hlt Hge.
  { by destruct Hk. }
  cbn [findFrom] in Hrun.
  assert ((i <? n - 4) = true) as Hloop by (apply Z.ltb_lt; lia).
  rewrite Hloop in Hrun.
  destruct (HasPrefix (c :: suffix) (lit "10=")) eqn:Hpre.
  - pose proof (scan_sound d tl (drop 3 (c :: suffix)) (i + 3)) as Hscan.
    destruct (scanDelimiter (d :: tl) (drop 3 (c :: suffix)) (i + 3)) as [[r|]|];
      [| |done].
    + destruct Hscan as (j' & _ & _ & ->). injection Hrun as Hrun. lia.
    + specialize (Hscan (j - 3)%nat). rewrite lookup_drop in Hscan.
      by replace (3 + (j - 3))%nat with j in Hscan by lia.
  - destruct k as [|k].
    { apply markerAt_head in Hk. congruence. }
    destruct j as [|j]; [lia|]. simpl.
    apply (IH (i + 1) k j); [lia| |done|done| |lia];
      unfold len in *; simpl length in *; lia.
Qed.

(** X10: the frame [findMessageEnd] finds.  With a non-empty delimiter, if
    the first [10=] of the buffer starts more than four bytes before its end
    and the delimiter's first byte occurs at or after the third byte from
    that start, the result is the index one past the first such occurrence. *)
Theorem findMessageEnd_first_frame c d tl (buffer : bytes) i j :
  c_delimiter c = d :: tl →
  firstMarkerAt buffer i → Z.of_nat i < len buffer - 4 →
  firstDelimiterFrom d buffer (i + 3) j →
  findMessageEnd c buffer = Returns (Z.of_nat j + 1).
Proof.
  intros Hd Hi Hlt Hj. unfold findMessageEnd. rewrite Hd.
  rewrite (findFrom_found d tl _ buffer 0 i j); [f_equal; lia|lia|done|done|done].
Qed.

Lemma findMessageEnd_first_frame_witness :
  (c_delimiter (NewClient [] 0) = SOH :: []
   ∧ firstMarkerAt (lit "8=F" ++ SOH :: lit "10=123" ++ SOH :: lit "8=F") 4
   ∧ Z.of_nat 4 < len (lit "8=F" ++ SOH :: lit "10=123" ++ SOH :: lit "8=F") - 4
   ∧ firstDelimiterFrom SOH (lit "8=F" ++ SOH :: lit "10=123" ++ SOH :: lit "8=F")
       (4 + 3) 10)
  ∧ findMessageEnd (NewClient [] 0) (lit "8=F" ++ SOH :: lit "10=123" ++ SOH :: lit "8=F")
    = Returns (Z.of_nat 10 + 1).
Proof.
  assert (c_delimiter (NewClient [] 0) = SOH :: []) as Hd by reflexivity.
  assert (firstMarkerAt (lit "8=F" ++ SOH :: lit "10=123" ++ SOH :: lit "8=F") 4) as Hi.
  { split; [by vm_compute|].
    intros i' Hlt (H1 & _ & _).
    do 4 (destruct i' as [|i']; [discriminate H1|]). lia. }
  assert (Z.of_nat 4 < len (lit "8=F" ++ SOH :: lit "10=123" ++ SOH :: lit "8=F") - 4)
    as Hlt by (vm_compute; reflexivity).
  assert (firstDelimiterFrom SOH (lit "8=F" ++ SOH :: lit "10=123" ++ SOH :: lit "8=F")
            (4 + 3) 10) as Hj.
  { split; [simpl; lia|]. split; [reflexivity|].
    intros j' H1 H2.
    do 7 (destruct j' as [|j']; [simpl in H1; lia|]).
    do 3 (destruct j' as [|j']; [discriminate|]). lia. }
  split; [exact (conj Hd (conj Hi (conj Hlt Hj)))|].
  exact (findMessageEnd_first_frame _ _ _ _ _ _ Hd Hi Hlt Hj).
Defined.

(** X11: when [findMessageEnd] gives up.  With a non-empty delimiter it
    always returns; it returns [-1] exactly when no [10=] that starts more
    than four bytes before the end of the buffer has the delimiter's first
    byte at or after the third byte from its start; any other result lies
    between 4 and the length of the buffer and is one past a delimiter
    byte. *)
Theorem findMessageEnd_gives_up_iff c d tl (buffer : bytes) :
  c_delimiter c = d :: tl →
  ∃ e, findMessageEnd c buffer = Returns e
       ∧ (e = -1 ↔
          ∀ i j, markerAt buffer i → Z.of_nat i < len buffer - 4 → (i + 3 ≤ j)%nat →
                 buffer !! j ≠ Some d)
       ∧ (e ≠ -1 → 4 <= e <= len buffer ∧ buffer !! Z.to_nat (e - 1) = Some d).
Proof.
  intros Hd. unfold findMessageEnd. rewrite Hd.
  pose proof (findFrom_sound d tl (len buffer) buffer 0 eq_refl) as Hsound.
  destruct (findFrom (d :: tl) (len buffer) buffer 0) as [e|] eqn:Hrun; [|done].
  exists e. split; [done|]. split; [split|].
  - intros -> i j. by apply (findFrom_minus_one d tl (len buffer) buffer 0).
  - intros Hno. rewrite findFrom_none in Hrun by done. by injection Hrun as <-.
  - intros Hne. destruct Hsound as [->|(k & j & _ & _ & (Hge & Hj & _) & ->)]; [done|].
    pose proof (lookup_lt_Some _ _ _ Hj) as Hlen. unfold len.
    replace (Z.to_nat (0 + Z.of_nat j + 1 - 1)) with j by lia.
    split; [lia|done].
Qed.

Lemma findMessageEnd_gives_up_witness :
  c_delimiter (NewClient [] 0) = SOH :: []
  ∧ ∃ e, findMessageEnd (NewClient [] 0) (lit "10=" ++ [SOH]) = Returns e
         ∧ (e = -1 ↔
            ∀ i j, markerAt (lit "10=" ++ [SOH]) i
                   → Z.of_nat i < len (lit "10=" ++ [SOH]) - 4 → (i + 3 ≤ j)%nat
                   → (lit "10=" ++ [SOH]) !! j ≠ Some SOH)
         ∧ (e ≠ -1 → 4 <= e <= len (lit "10=" ++ [SOH])
                     ∧ (lit "10=" ++ [SOH]) !! Z.to_nat (e - 1) = Some SOH).
Proof.
  assert (c_delimiter (NewClient [] 0) = SOH :: []) as Hd by reflexivity.
  split; [exact Hd|].
  exact (findMessageEnd_gives_up_iff _ _ _ (lit "10=" ++ [SOH]) Hd).
Defined.

End FindMessageEnd.

(** ** Edge cases of the framer *)

Section FramerEdges.

(** X12: a marker among the last four bytes is not looked at.  A buffer
    that ends with [10=] and one delimiter byte, with no [10=] starting
    earlier, gives [-1]; the same buffer followed by one more byte gives the
    frame that ends at that delimiter. *)
Theorem findMessageEnd_waits_for_a_byte_after_an_empty_checksum
    c d tl (pre : bytes) (x : ascii) :
  c_delimiter c = d :: tl →
  (∀ i, (i < length pre)%nat → ¬ markerAt (pre ++ lit "10=" ++ [d]) i) →
  findMessageEnd c (pre ++ lit "10=" ++ [d]) = Returns (-1)
  ∧ findMessageEnd c (pre ++ lit "10=" ++ [d; x]) = Returns (len pre + 4).
Proof.
  intros Hd Hfree.
  assert (∀ (rest : bytes) i, (i < length pre)%nat →
            markerAt ((pre ++ lit "10=") ++ rest) i ↔ markerAt (pre ++ lit "10=") i)
    as Hsame.
  { intros rest i Hi. unfold markerAt.
    assert (length (pre ++ lit "10=") = length pre + 3)%nat as Hlen
      by (by rewrite length_app).
    by rewrite !(lookup_app_l (pre ++ lit "10=")) by lia. }
  split.
  - unfold findMessageEnd. rewrite Hd. apply findFrom_none; [lia|].
    intros i j Hi Hlt _. exfalso. apply (Hfree i); [|done].
    unfold len in Hlt. rewrite length_app in Hlt. simpl length in Hlt. lia.
  - unfold findMessageEnd. rewrite Hd.
    rewrite (findFrom_found d tl _ _ 0 (length pre) (length pre + 3)).
    + f_equal. unfold len. lia.
    + lia.
    + split.
      * unfold markerAt.
        rewrite (lookup_app_r pre _ (length pre)) by lia.
        rewrite (lookup_app_r pre _ (length pre + 1)) by lia.
        rewrite (lookup_app_r pre _ (length pre + 2)) by lia.
        replace (length pre - length pre)%nat with 0%nat by lia.
        replace (length pre + 1 - length pre)%nat with 1%nat by lia.
        replace (length pre + 2 - length pre)%nat with 2%nat by lia. done.
      * intros i Hi Hm. apply (Hfree i Hi).
        change (pre ++ lit "10=" ++ [d]) with (pre ++ lit "10=" ++ ([d] : bytes)).
        rewrite app_assoc. apply Hsame; [done|].
        change (pre ++ lit "10=" ++ [d; x]) with (pre ++ lit "10=" ++ ([d; x] : bytes)) in Hm.
        rewrite app_assoc in Hm. by apply Hsame in Hm.
    + unfold len. rewrite length_app. simpl length. lia.
    + split; [lia|]. split.
      * rewrite lookup_app_r by lia.
        by replace (length pre + 3 - length pre)%nat with 3%nat by lia.
      * intros j H1 H2. lia.
Qed.

Lemma findMessageEnd_waits_witness :
  (c_delimiter (NewClient [] 0) = SOH :: []
   ∧ ∀ i, (i < length (lit "8=F" ++ [SOH]))%nat
          → ¬ markerAt ((lit "8=F" ++ [SOH]) ++ lit "10=" ++ [SOH]) i)
  ∧ findMessageEnd (NewClient [] 0) ((lit "8=F" ++ [SOH]) ++ lit "10=" ++ [SOH])
    = Returns (-1)
  ∧ findMessageEnd (NewClient [] 0) ((lit "8=F" ++ [SOH]) ++ lit "10=" ++ [SOH; "8"%char])
    = Returns (len (lit "8=F" ++ [SOH]) + 4).
Proof.
  assert (c_delimiter (NewClient [] 0) = SOH :: []) as Hd by reflexivity.
  assert (∀ i, (i < length (lit "8=F" ++ [SOH]))%nat
               → ¬ markerAt ((lit "8=F" ++ [SOH]) ++ lit "10=" ++ [SOH]) i) as Hfree.
  { intros i Hi (H1 & _ & _).
    do 4 (destruct i as [|i]; [discriminate H1|]). simpl in Hi. lia. }
  split; [exact (conj Hd Hfree)|].
  exact (findMessageEnd_waits_for_a_byte_after_an_empty_checksum
           _ _ _ (lit "8=F" ++ [SOH]) "8"%char Hd Hfree).
Defined.

End FramerEdges.

(** ** The reader loop *)

Section Reader.

Lemma findFrom_empty_delimiter n (suffix : bytes) i :
  n = i + len suffix →
  ((∃ k, markerAt suffix k ∧ Z.of_nat k < len suffix - 4) →
   findFrom [] n suffix i = Panics)
  ∧ ((∀ k, markerAt suffix k → ¬ Z.of_nat k < len suffix - 4) →
     findFrom [] n suffix i = Returns (-1)).
Proof.
  revert i. induction suffix as [|b suffix IH]; intros i Hn.
  { split; [|done]. intros (k & [Hk _] & _). done. }
  assert (n = i + 1 + len suffix) as Hn' by (unfold len in *; simpl length in Hn; lia).
  destruct (IH (i + 1) Hn') as [IHp IHr]. cbn [findFrom]. split.
  - intros (k & Hk & Hlt).
    assert ((i <? n - 4) = true) as -> by (apply Z.ltb_lt; lia).
    destruct (HasPrefix (b :: suffix) (lit "10=")) eqn:Hpre.
    + destruct (drop 3 (b :: suffix)) as [|x rest] eqn:Hdrop; [|done].
      apply (f_equal length) in Hdrop. rewrite length_drop in Hdrop.
      unfold len in Hlt. simpl length in *. lia.
    + destruct k as [|k]; [apply markerAt_head in Hk; congruence|].
      apply IHp. exists k. split; [done|].
      unfold len in *. simpl length in Hlt. lia.
  - intros Hno. destruct (i <? n - 4) eqn:Hloop; [|done].
    apply Z.ltb_lt in Hloop.
    assert (findFrom [] n suffix (i + 1) = Returns (-1)) as Hrec.
    { apply IHr. intros k Hk Hlt. apply (Hno (S k)); [done|].
      unfold len in *. simpl length. lia. }
    destruct (HasPrefix (b :: suffix) (lit "10=")) eqn:Hpre; [|done].
    apply markerAt_head in Hpre. exfalso. apply (Hno 0%nat Hpre). lia.
Qed.

(** X13: an empty client delimiter.  [findMessageEnd] then panics, on
    [c.delimiter[0]], as soon as the buffer holds a [10=] that starts more
    than four bytes before its end, and returns [-1] otherwise. *)
Theorem findMessageEnd_empty_delimiter c (buffer : bytes) :
  c_delimiter c = [] →
  ((∃ i, markerAt buffer i ∧ Z.of_nat i < len buffer - 4) →
   findMessageEnd c buffer = Panics)
  ∧ ((∀ i, markerAt buffer i → ¬ Z.of_nat i < len buffer - 4) →
     findMessageEnd c buffer = Returns (-1)).
Proof.
  intros Hd. unfold findMessageEnd. rewrite Hd.
  apply findFrom_empty_delimiter. lia.
Qed.

Lemma findMessageEnd_empty_delimiter_witness :
  c_delimiter (WithDelimiter [] (NewClient [] 0)) = []
  ∧ ((∃ i, markerAt (lit "10=12") i ∧ Z.of_nat i < len (lit "10=12") - 4) →
     findMessageEnd (WithDelimiter [] (NewClient [] 0)) (lit "10=12") = Panics)
  ∧ ((∀ i, markerAt (lit "10=12") i → ¬ Z.of_nat i < len (lit "10=12") - 4) →
     findMessageEnd (WithDelimiter [] (NewClient [] 0)) (lit "10=12") = Returns (-1)).
Proof.
  assert (c_delimiter (WithDelimiter [] (NewClient [] 0)) = []) as Hd by reflexivity.
  split; [exact Hd|].
  exact (findMessageEnd_empty_delimiter _ (lit "10=12") Hd).
Defined.

Lemma findMessageEnd_shape c d tl (buffer : bytes) :
  c_delimiter c = d :: tl →
  ∃ e, findMessageEnd c buffer = Returns e
       ∧ (e = -1
          ∨ ∃ i j, firstMarkerAt buffer i ∧ Z.of_nat i < len buffer - 4
                   ∧ firstDelimiterFrom d buffer (i + 3) j ∧ e = Z.of_nat j + 1).
Proof.
  intros Hd. unfold findMessageEnd. rewrite Hd.
  pose proof (findFrom_sound d tl (len buffer) buffer 0 eq_refl) as Hsound.
  destruct (findFrom (d :: tl) (len buffer) buffer 0) as [e|]; [|done].
  exists e. split; [done|].
  destruct Hsound as [->|(k & j & H1 & H2 & H3 & ->)]; [by left|right].
  exists k, j. split; [done|]. split; [done|]. split; [done|]. lia.
Qed.

(** One round of the inner loop. *)
Lemma extractMessage_spec c d tl (buffer : bytes) :
  c_delimiter c = d :: tl →
  (extractMessage c buffer = Returns None ∧ findMessageEnd c buffer = Returns (-1))
  ∨ ∃ j, extractMessage c buffer = Returns (Some (take (S j) buffer, drop (S j) buffer))
         ∧ findMessageEnd c buffer = Returns (Z.of_nat j + 1)
         ∧ (3 ≤ j)%nat ∧ buffer !! j = Some d.
Proof.
  intros Hd. unfold extractMessage.
  destruct (findMessageEnd_shape c d tl buffer Hd)
    as (e & -> & [->|(i & j & _ & _ & (Hge & Hj & _) & ->)]); [by left|right].
  exists j. rewrite bool_decide_eq_false_2 by lia.
  unfold sliceTo, sliceFrom. replace (Z.to_nat (Z.of_nat j + 1)) with (S j) by lia.
  repeat split; try done. lia.
Qed.

Lemma processRounds_spec c d tl n (buffer : bytes) :
  c_delimiter c = d :: tl → (length buffer ≤ n)%nat →
  ∃ messages kept,
    processRounds n c buffer = Returns (messages, kept)
    ∧ concat messages ++ kept = buffer
    ∧ Forall (fun m => (4 ≤ length m)%nat ∧ last m = Some d) messages
    ∧ findMessageEnd c kept = Returns (-1).
Proof.
  intros Hd. revert buffer. induction n as [|n IH]; intros buffer Hlen.
  - destruct buffer; [|simpl in Hlen; lia]. exists [], []. by repeat split.
  - cbn [processRounds].
    destruct (extractMessage_spec c d tl buffer Hd)
      as [[-> Hnone]|(j & -> & _ & Hj3 & Hj)].
    + exists [], buffer. repeat split; done.
    + pose proof (lookup_lt_Some _ _ _ Hj) as Hjlen.
      destruct (IH (drop (S j) buffer)) as (ms & kept & -> & Hcat & Hall & Hkept).
      { rewrite length_drop. lia. }
      exists (take (S j) buffer :: ms), kept. repeat split; try done.
      * cbn [concat]. by rewrite <- app_assoc, Hcat, take_drop.
      * constructor; [|done]. split.
        -- rewrite length_take. lia.
        -- rewrite last_lookup, length_take.
           replace (Init.Nat.pred (S j `min` length buffer)) with j by lia.
           by rewrite lookup_take_lt by lia.
Qed.

(** X14: the inner loop of the reader.  With a non-empty delimiter it
    ends without panic; the messages it takes, followed by the bytes it
    keeps, are the buffer, byte for byte; every message has at least four
    bytes and ends with the delimiter's first byte; and what is kept holds
    no further frame. *)
Theorem processBuffer_loses_nothing c d tl (buffer : bytes) :
  c_delimiter c = d :: tl →
  ∃ messages kept,
    processBuffer c buffer = Returns (messages, kept)
    ∧ concat messages ++ kept = buffer
    ∧ Forall (fun m => (4 ≤ length m)%nat ∧ last m = Some d) messages
    ∧ findMessageEnd c kept = Returns (-1).
Proof. intros Hd. by apply (processRounds_spec c d tl). Qed.

Lemma processBuffer_loses_nothing_witness :
  c_delimiter (NewClient [] 0) = SOH :: []
  ∧ ∃ messages kept,
      processBuffer (NewClient [] 0) (lit "8=F" ++ SOH :: lit "10=123" ++ SOH :: lit "8=F")
      = Returns (messages, kept)
      ∧ concat messages ++ kept = lit "8=F" ++ SOH :: lit "10=123" ++ SOH :: lit "8=F"
      ∧ Forall (fun m => (4 ≤ length m)%nat ∧ last m = Some SOH) messages
      ∧ findMessageEnd (NewClient [] 0) kept = Returns (-1).
Proof.
  assert (c_delimiter (NewClient [] 0) = SOH :: []) as Hd by reflexivity.
  split; [exact Hd|].
  exact (processBuffer_loses_nothing _ _ _
           (lit "8=F" ++ SOH :: lit "10=123" ++ SOH :: lit "8=F") Hd).
Defined.

End Reader.

(** ** Reading in chunks *)

Section Chunks.

(** A frame found in a buffer is found, the same, in any longer buffer. *)
Lemma findMessageEnd_prefix_stable c d tl (a b : bytes) j :
  c_delimiter c = d :: tl →
  findMessageEnd c a = Returns (Z.of_nat j + 1) →
  findMessageEnd c (a ++ b) = Returns (Z.of_nat j + 1).
Proof.
  intros Hd Hrun.
  destruct (findMessageEnd_shape c d tl a Hd)
    as (e & He & [->|(i & j' & [Hi Hfirst] & Hlt & (Hge & Hj & Hjfirst) & ->)]);
    rewrite He in Hrun; injection Hrun as Hrun; [lia|].
  assert (j' = j) as -> by lia.
  pose proof (lookup_lt_Some _ _ _ Hj) as Hjlen.
  unfold findMessageEnd. rewrite Hd.
  rewrite (findFrom_found d tl _ (a ++ b) 0 i j); [f_equal; lia|lia| | |].
  - destruct Hi as (H1 & H2 & H3). split.
    + unfold markerAt. rewrite !lookup_app_l by lia. done.
    + intros i' Hi' (G1 & G2 & G3). apply (Hfirst i' Hi').
      unfold markerAt. by rewrite !lookup_app_l in G1, G2, G3 by lia.
  - unfold len in *. rewrite length_app. lia.
  - split; [done|]. split; [by rewrite lookup_app_l by lia|].
    intros j' H1 H2. rewrite lookup_app_l by lia. by apply Hjfirst.
Qed.

Lemma processRounds_enough c d tl n (buffer : bytes) :
  c_delimiter c = d :: tl → (length buffer ≤ n)%nat →
  processRounds n c buffer = processBuffer c buffer.
Proof.
  intros Hd. unfold processBuffer.
  assert (∀ n m (buffer : bytes), (length buffer ≤ n)%nat → (length buffer ≤ m)%nat →
            processRounds n c buffer = processRounds m c buffer) as Hany.
  { clear n buffer. induction n as [|n IH]; intros m buffer Hn Hm.
    - destruct buffer; [|simpl in Hn; lia]. by destruct m.
    - destruct m as [|m].
      + destruct buffer; [|simpl in Hm; lia]. done.
      + cbn [processRounds].
        destruct (extractMessage_spec c d tl buffer Hd)
          as [[-> _]|(j & -> & _ & _ & Hj)]; [done|].
        pose proof (lookup_lt_Some _ _ _ Hj) as Hjlen.
        rewrite (IH m); [done| |]; rewrite length_drop; lia. }
  intros Hlen. by apply Hany.
Qed.

(** Processing a buffer, then what was kept with more bytes after it, is
    processing the whole at once. *)
Lemma processBuffer_app c d tl (a b : bytes) messages kept :
  c_delimiter c = d :: tl →
  processBuffer c a = Returns (messages, kept) →
  processBuffer c (a ++ b)
  = match processBuffer c (kept ++ b) with
    | Returns (messages', kept') => Returns (messages ++ messages', kept')
    | Panics => Panics
    end.
Proof.
  intros Hd. unfold processBuffer at 1.
  remember (length a) as n eqn:Hn.
  assert (length a ≤ n)%nat as Hlen by lia. clear Hn.
  revert a messages kept Hlen. induction n as [|n IH]; intros a messages kept Hlen Hrun.
  - destruct a; [|simpl in Hlen; lia]. injection Hrun as <- <-.
    simpl. by destruct (processBuffer c b) as [[??]|].
  - cbn [processRounds] in Hrun.
    destruct (extractMessage_spec c d tl a Hd)
      as [[Hex _]|(j & Hex & Hfind & _ & Hj)]; rewrite Hex in Hrun.
    + injection Hrun as <- <-. by destruct (processBuffer c (a ++ b)) as [[??]|].
    + pose proof (lookup_lt_Some _ _ _ Hj) as Hjlen.
      destruct (processRounds n c (drop (S j) a)) as [[ms k]|] eqn:Hrest; [|done].
      injection Hrun as <- <-.
      assert (length (drop (S j) a) ≤ n)%nat as Hdrop by (rewrite length_drop; lia).
      specialize (IH (drop (S j) a) ms k Hdrop Hrest).
      unfold processBuffer at 1.
      destruct (length (a ++ b)) as [|n'] eqn:Hn'.
      { rewrite length_app in Hn'. lia. }
      cbn [processRounds]. unfold extractMessage.
      rewrite (findMessageEnd_prefix_stable c d tl a b j Hd Hfind).
      rewrite bool_decide_eq_false_2 by lia.
      unfold sliceTo, sliceFrom. replace (Z.to_nat (Z.of_nat j + 1)) with (S j) by lia.
      rewrite take_app_le, drop_app_le by lia.
      rewrite (processRounds_enough c d tl) by
        (done || (rewrite length_app in *; rewrite length_drop; lia)).
      rewrite IH. by destruct (processBuffer c (k ++ b)) as [[??]|].
Qed.

Lemma readChunks_spec c d tl (messageBuffer : bytes) (chunks : list bytes) :
  c_delimiter c = d :: tl →
  findMessageEnd c messageBuffer = Returns (-1) →
  readChunks c messageBuffer chunks = processBuffer c (messageBuffer ++ concat chunks).
Proof.
  intros Hd. revert messageBuffer.
  induction chunks as [|data chunks IH]; intros messageBuffer Hkept.
  - cbn [readChunks concat]. rewrite app_nil_r. unfold processBuffer.
    destruct (length messageBuffer); [done|].
    cbn [processRounds]. unfold extractMessage. by rewrite Hkept.
  - cbn [readChunks concat].
    destruct (processRounds_spec c d tl (length (messageBuffer ++ data))
                (messageBuffer ++ data) Hd (le_n _))
      as (ms & kept & Hrun & _ & _ & Hnone).
    fold (processBuffer c (messageBuffer ++ data)) in Hrun.
    rewrite Hrun, (IH kept Hnone), app_assoc.
    by rewrite (processBuffer_app c d tl _ _ ms kept Hd Hrun).
Qed.

(** X15: partial reads.  With a non-empty delimiter, reading a stream in
    chunks, however it is cut, hands over the messages that one pass over
    the whole stream hands over, and keeps the same bytes. *)
Theorem readChunks_is_one_pass c d tl (chunks : list bytes) :
  c_delimiter c = d :: tl →
  readChunks c [] chunks = processBuffer c (concat chunks).
Proof.
  intros Hd. rewrite (readChunks_spec c d tl) by (done || by rewrite Hd).
  done.
Qed.

Lemma readChunks_is_one_pass_witness :
  c_delimiter (NewClient [] 0) = SOH :: []
  ∧ readChunks (NewClient [] 0) []
      [ lit "8=F" ++ SOH :: lit "10"; lit "=12"; lit "3" ++ SOH :: lit "8=" ]
    = processBuffer (NewClient [] 0)
        (concat [ lit "8=F" ++ SOH :: lit "10"; lit "=12"; lit "3" ++ SOH :: lit "8=" ]).
Proof.
  assert (c_delimiter (NewClient [] 0) = SOH :: []) as Hd by reflexivity.
  split; [exact Hd|].
  exact (readChunks_is_one_pass _ _ _ _ Hd).
Defined.

End Chunks.

(** ** The session: connection state and sequence numbers *)

Section Session.

Lemma wrap64_id z : - 2 ^ 63 <= z < 2 ^ 63 → wrap64 z = z.
Proof. intros Hz. unfold wrap64. rewrite Z.mod_small; lia. Qed.

Lemma HasSuffix_app (s suffix : bytes) : HasSuffix (s ++ suffix) suffix = true.
Proof.
  unfold HasSuffix. rewrite length_app.
  apply andb_true_intro. split; [apply Nat.leb_le; lia|].
  apply bool_decide_eq_true_2.
  replace (length s + length suffix - length suffix)%nat with (length s) by lia.
  by rewrite drop_app_length.
Qed.

Lemma Send_connected c arg nowBody nowHeader writeErr :
  isConnected c = true →
  let c' := (Send c arg nowBody nowHeader writeErr).1 in
  isConnected c' = true ∧ c_delimiter c' = c_delimiter c
  ∧ messageSequenceNum c' = wrap64 (messageSequenceNum c + 1)
  ∧ conn c' = conn c ++ match arg, writeErr with
                        | Known msg, None =>
                            [wireOf c msg (wrap64 (messageSequenceNum c + 1))
                               nowBody nowHeader]
                        | _, _ => []
                        end.
Proof.
  intros Hc. unfold Send. rewrite Hc. cbn [negb].
  destruct arg as [msg|]; [destruct writeErr as [err|]|]; cbn;
    rewrite ?app_nil_r; repeat split; try done.
  unfold wireOf. cbn.
  by destruct (HasSuffix _ _).
Qed.

Lemma wireOf_delimiter c c' msg s nowBody nowHeader :
  c_delimiter c' = c_delimiter c →
  wireOf c' msg s nowBody nowHeader = wireOf c msg s nowBody nowHeader.
Proof. intros H. unfold wireOf. by rewrite H. Qed.

Lemma writesOf_delimiter c c' s calls :
  c_delimiter c' = c_delimiter c → writesOf c' s calls = writesOf c s calls.
Proof.
  intros H. revert s. induction calls as [|[[[arg tb] th] w] calls IH]; intros s; [done|].
  cbn [writesOf]. rewrite IH.
  destruct arg; [destruct w|]; try done. by rewrite (wireOf_delimiter c c').
Qed.

Lemma sendCalls_spec c s calls :
  isConnected c = true → messageSequenceNum c = s →
  - 2 ^ 63 <= s → s + Z.of_nat (length calls) < 2 ^ 63 →
  isConnected (sendCalls c calls) = true
  ∧ c_delimiter (sendCalls c calls) = c_delimiter c
  ∧ messageSequenceNum (sendCalls c calls) = s + Z.of_nat (length calls)
  ∧ conn (sendCalls c calls) = conn c ++ writesOf c s calls.
Proof.
  revert c s. induction calls as [|[[[arg tb] th] w] calls IH]; intros c s Hc Hs Hlo Hhi.
  - cbn. rewrite app_nil_r. repeat split; try done. lia.
  - cbn [sendCalls writesOf]. simpl length in Hhi.
    destruct (Send_connected c arg tb th w Hc) as (Hc' & Hd' & Hs' & Hw').
    rewrite Hs, wrap64_id in Hs' by lia. rewrite Hs, wrap64_id in Hw' by lia.
    destruct (IH (Send c arg tb th w).1 (s + 1) Hc' Hs') as (H1 & H2 & H3 & H4);
      [lia|lia|].
    rewrite H1, H2, H3, H4, Hd', Hw', (writesOf_delimiter c _ _ _ Hd').
    repeat split; try done; [simpl length; lia|by rewrite <- app_assoc].
Qed.

(** X16: every call of [Send] on a connected client takes a sequence
    number.  In a run of calls that starts with the counter at [s] (and
    stays within the range of [int]), the call number [k] uses [s + k]
    whether or not it writes; only the calls with a message and a successful
    write put their message on the socket, so an unsupported argument or a
    failed write leaves a gap in the numbers sent. *)
Theorem every_Send_call_takes_a_sequence_number c s calls :
  isConnected c = true → messageSequenceNum c = s →
  - 2 ^ 63 <= s → s + Z.of_nat (length calls) < 2 ^ 63 →
  messageSequenceNum (sendCalls c calls) = s + Z.of_nat (length calls)
  ∧ conn (sendCalls c calls) = conn c ++ writesOf c s calls.
Proof.
  intros Hc Hs Hlo Hhi.
  destruct (sendCalls_spec c s calls Hc Hs Hlo Hhi) as (_ & _ & H3 & H4). done.
Qed.

Lemma every_Send_call_witness :
  (isConnected (Connect (NewClient [] 0) None).1 = true
   ∧ messageSequenceNum (Connect (NewClient [] 0) None).1 = 0
   ∧ - 2 ^ 63 <= 0
   ∧ 0 + Z.of_nat (length [ (Unsupported, sampleTime, sampleTime, @None error);
                            (Known (NewLogoutRequest sampleConfig), sampleTime, sampleTime,
                             @None error) ]) < 2 ^ 63)
  ∧ messageSequenceNum
      (sendCalls (Connect (NewClient [] 0) None).1
         [ (Unsupported, sampleTime, sampleTime, None);
           (Known (NewLogoutRequest sampleConfig), sampleTime, sampleTime, None) ])
    = 0 + Z.of_nat 2
  ∧ conn (sendCalls (Connect (NewClient [] 0) None).1
            [ (Unsupported, sampleTime, sampleTime, None);
              (Known (NewLogoutRequest sampleConfig), sampleTime, sampleTime, None) ])
    = conn (Connect (NewClient [] 0) None).1
      ++ writesOf (Connect (NewClient [] 0) None).1 0
           [ (Unsupported, sampleTime, sampleTime, None);
             (Known (NewLogoutRequest sampleConfig), sampleTime, sampleTime, None) ].
Proof.
  assert (isConnected (Connect (NewClient [] 0) None).1 = true) as Hc by reflexivity.
  assert (messageSequenceNum (Connect (NewClient [] 0) None).1 = 0) as Hs by reflexivity.
  assert (- 2 ^ 63 <= 0) as Hlo by lia.
  assert (0 + Z.of_nat (length [ (Unsupported, sampleTime, sampleTime, @None error);
                                 (Known (NewLogoutRequest sampleConfig), sampleTime,
                                  sampleTime, @None error) ]) < 2 ^ 63) as Hhi
    by (simpl; lia).
  split; [exact (conj Hc (conj Hs (conj Hlo Hhi)))|].
  exact (every_Send_call_takes_a_sequence_number _ 0 _ Hc Hs Hlo Hhi).
Defined.

Lemma sendAll_as_calls c reqs :
  (sendAll c reqs).1
  = sendCalls c (map (fun r : Message * Time * Time => (Known r.1.1, r.1.2, r.2, None)) reqs).
Proof.
  revert c. induction reqs as [|[[m tb] th] reqs IH]; intros c; [done|].
  cbn [sendAll map sendCalls fst snd].
  destruct (Send c (Known m) tb th None) as [c1 err] eqn:E1.
  specialize (IH c1). destruct (sendAll c1 reqs) as [c2 errs]. cbn [fst] in *.
  by rewrite IH.
Qed.

Lemma sendAll_errors c reqs :
  isConnected c = true → Forall (fun e => e = None) (sendAll c reqs).2.
Proof.
  revert c. induction reqs as [|[[m tb] th] reqs IH]; intros c Hc; [constructor|].
  cbn [sendAll].
  destruct (Send_connected c (Known m) tb th None Hc) as (Hc' & _).
  assert ((Send c (Known m) tb th None).2 = None) as Herr.
  { unfold Send. rewrite Hc. reflexivity. }
  destruct (Send c (Known m) tb th None) as [c1 err]. cbn [fst snd] in *.
  specialize (IH c1 Hc'). destruct (sendAll c1 reqs) as [c2 errs]. cbn [snd] in *.
  constructor; done.
Qed.

Lemma writesOf_all_sent c s reqs :
  writesOf c s (map (fun r : Message * Time * Time => (Known r.1.1, r.1.2, r.2, None)) reqs)
  = imap (fun k (r : Message * Time * Time) => wireOf c r.1.1 (s + Z.of_nat k + 1) r.1.2 r.2)
      reqs.
Proof.
  revert s. induction reqs as [|[[m tb] th] reqs IH]; intros s; [done|].
  cbn [map writesOf imap fst snd app]. rewrite IH. f_equal.
  - f_equal. lia.
  - apply imap_ext. intros k r _. cbn. f_equal. lia.
Qed.

Lemma sendAll_after_Connect c (reqs : list (Message * Time * Time)) :
  isConnected c = false → Z.of_nat (length reqs) < 2 ^ 63 →
  let c1 := (Connect c None).1 in
  (Connect c None).2 = None
  ∧ messageSequenceNum c1 = 0
  ∧ Forall (fun e => e = None) (sendAll c1 reqs).2
  ∧ messageSequenceNum (sendAll c1 reqs).1 = Z.of_nat (length reqs)
  ∧ conn (sendAll c1 reqs).1
    = imap (fun k (r : Message * Time * Time) =>
              wireOf c r.1.1 (Z.of_nat k + 1) r.1.2 r.2) reqs.
Proof.
  intros Hc Hlen c1. subst c1. unfold Connect. rewrite Hc. cbn [fst snd].
  set (c1 := {| host := host c; port := port c; ssl := ssl c;
                c_delimiter := c_delimiter c; conn := [];
                messageSequenceNum := 0; isConnected := true |}).
  split; [done|]. split; [done|]. split; [by apply sendAll_errors|].
  rewrite sendAll_as_calls.
  destruct (sendCalls_spec c1 0
              (map (fun r : Message * Time * Time => (Known r.1.1, r.1.2, r.2, None)) reqs))
    as (_ & _ & H3 & H4); [done|done|lia|rewrite length_map; lia|].
  rewrite H3, H4, length_map, writesOf_all_sent. split; [lia|].
  cbn [conn c1 app]. apply imap_ext. intros k r _. cbn.
  by rewrite (wireOf_delimiter c c1).
Qed.


(** X17: sequence numbers after [Connect].  On a client that is not
    connected, whatever its counter was, a successful [Connect] sets the
    counter to 0; then N sends of messages whose writes succeed all return
    [nil], leave the counter at N, and put on the socket exactly N texts, the
    one of rank k built with sequence number k. *)
Theorem sequence_numbers_after_Connect c (reqs : list (Message * Time * Time)) :
  isConnected c = false → Z.of_nat (length reqs) < 2 ^ 63 →
  let c1 := (Connect c None).1 in
  (Connect c None).2 = None
  ∧ messageSequenceNum c1 = 0
  ∧ Forall (fun e => e = None) (sendAll c1 reqs).2
  ∧ messageSequenceNum (sendAll c1 reqs).1 = Z.of_nat (length reqs)
  ∧ conn (sendAll c1 reqs).1
    = imap (fun k (r : Message * Time * Time) =>
              wireOf c r.1.1 (Z.of_nat k + 1) r.1.2 r.2) reqs.
Proof. apply sendAll_after_Connect. Qed.

Lemma sequence_numbers_witness :
  (isConnected (NewClient [] 0) = false
   ∧ Z.of_nat (length [ (NewLogonRequest sampleConfig, sampleTime, sampleTime);
                        (NewHeartbeat sampleConfig, sampleTime, sampleTime) ]) < 2 ^ 63)
  ∧ (Connect (NewClient [] 0) None).2 = None
  ∧ messageSequenceNum (Connect (NewClient [] 0) None).1 = 0
  ∧ Forall (fun e => e = None)
      (sendAll (Connect (NewClient [] 0) None).1
         [ (NewLogonRequest sampleConfig, sampleTime, sampleTime);
           (NewHeartbeat sampleConfig, sampleTime, sampleTime) ]).2
  ∧ messageSequenceNum
      (sendAll (Connect (NewClient [] 0) None).1
         [ (NewLogonRequest sampleConfig, sampleTime, sampleTime);
           (NewHeartbeat sampleConfig, sampleTime, sampleTime) ]).1
    = Z.of_nat (length [ (NewLogonRequest sampleConfig, sampleTime, sampleTime);
                         (NewHeartbeat sampleConfig, sampleTime, sampleTime) ])
  ∧ conn (sendAll (Connect (NewClient [] 0) None).1
            [ (NewLogonRequest sampleConfig, sampleTime, sampleTime);
              (NewHeartbeat sampleConfig, sampleTime, sampleTime) ]).1
    = imap (fun k (r : Message * Time * Time) =>
              wireOf (NewClient [] 0) r.1.1 (Z.of_nat k + 1) r.1.2 r.2)
        [ (NewLogonRequest sampleConfig, sampleTime, sampleTime);
          (NewHeartbeat sampleConfig, sampleTime, sampleTime) ].
Proof.
  assert (isConnected (NewClient [] 0) = false) as Hc by reflexivity.
  assert (Z.of_nat (length [ (NewLogonRequest sampleConfig, sampleTime, sampleTime);
                             (NewHeartbeat sampleConfig, sampleTime, sampleTime) ]) < 2 ^ 63)
    as Hlen by (simpl; lia).
  split; [exact (conj Hc Hlen)|].
  exact (sequence_numbers_after_Connect (NewClient [] 0) _ Hc Hlen).
Defined.

End Session.

(** ** What [Send] writes, and the life of a connection *)

Section SessionEdges.

Lemma GetMessage_ends msg sequenceNumber nowBody nowHeader :
  HasSuffix (GetMessage msg sequenceNumber nowBody nowHeader) (rm_delimiter (base msg)) = true.
Proof. unfold GetMessage. rewrite app_assoc. apply HasSuffix_app. Qed.

Lemma wireOf_default c msg sequenceNumber nowBody nowHeader :
  c_delimiter c = rm_delimiter (base msg) →
  wireOf c msg sequenceNumber nowBody nowHeader
  = GetMessage msg sequenceNumber nowBody nowHeader.
Proof. intros Hd. unfold wireOf. by rewrite Hd, GetMessage_ends. Qed.

Lemma wireOf_ends c msg sequenceNumber nowBody nowHeader :
  HasSuffix (wireOf c msg sequenceNumber nowBody nowHeader) (c_delimiter c) = true.
Proof.
  unfold wireOf.
  destruct (HasSuffix (GetMessage msg sequenceNumber nowBody nowHeader) (c_delimiter c))
    eqn:E; [done|apply HasSuffix_app].
Qed.

(** X18: what a successful [Send] writes.  On a connected client, a send of
    a message whose write succeeds returns [nil] and appends one text to what
    the socket took; that text ends with the client's delimiter, and when the
    client's delimiter is the one the message was built with (the default
    for both) it is the built message, with no second delimiter added. *)
Theorem Send_writes_one_delimited_text c msg nowBody nowHeader :
  isConnected c = true →
  let result := Send c (Known msg) nowBody nowHeader None in
  let built := GetMessage msg (wrap64 (messageSequenceNum c + 1)) nowBody nowHeader in
  result.2 = None
  ∧ ∃ wire, conn result.1 = conn c ++ [wire]
            ∧ HasSuffix wire (c_delimiter c) = true
            ∧ (wire = built ∨ wire = built ++ c_delimiter c)
            ∧ (c_delimiter c = rm_delimiter (base msg) → wire = built).
Proof.
  intros Hc result built.
  destruct (Send_connected c (Known msg) nowBody nowHeader None Hc) as (_ & _ & _ & Hw).
  split; [subst result; unfold Send; by rewrite Hc|].
  exists (wireOf c msg (wrap64 (messageSequenceNum c + 1)) nowBody nowHeader).
  split; [exact Hw|]. split; [apply wireOf_ends|]. split.
  - unfold wireOf. fold built. destruct (HasSuffix built (c_delimiter c)); eauto.
  - apply wireOf_default.
Qed.

Lemma Send_writes_witness :
  isConnected (Connect (NewClient [] 0) None).1 = true
  ∧ (Send (Connect (NewClient [] 0) None).1 (Known (NewLogoutRequest sampleConfig))
       sampleTime sampleTime None).2 = None
  ∧ ∃ wire,
      conn (Send (Connect (NewClient [] 0) None).1 (Known (NewLogoutRequest sampleConfig))
              sampleTime sampleTime None).1
      = conn (Connect (NewClient [] 0) None).1 ++ [wire]
      ∧ HasSuffix wire (c_delimiter (Connect (NewClient [] 0) None).1) = true
      ∧ (wire = GetMessage (NewLogoutRequest sampleConfig)
                  (wrap64 (messageSequenceNum (Connect (NewClient [] 0) None).1 + 1))
                  sampleTime sampleTime
         ∨ wire = GetMessage (NewLogoutRequest sampleConfig)
                    (wrap64 (messageSequenceNum (Connect (NewClient [] 0) None).1 + 1))
                    sampleTime sampleTime
                  ++ c_delimiter (Connect (NewClient [] 0) None).1)
      ∧ (c_delimiter (Connect (NewClient [] 0) None).1
         = rm_delimiter (base (NewLogoutRequest sampleConfig))
         → wire = GetMessage (NewLogoutRequest sampleConfig)
                    (wrap64 (messageSequenceNum (Connect (NewClient [] 0) None).1 + 1))
                    sampleTime sampleTime).
Proof.
  assert (isConnected (Connect (NewClient [] 0) None).1 = true) as Hc by reflexivity.
  split; [exact Hc|].
  exact (Send_writes_one_delimited_text _ (NewLogoutRequest sampleConfig)
           sampleTime sampleTime Hc).
Defined.

(** X19: the life of a connection.  [Disconnect] twice is [Disconnect]
    once, and it keeps the counter and what was sent; after [Disconnect]
    every [Send] fails with the not-connected error and changes nothing;
    [Connect] on a client that [Connect] has just been called on with a
    working dialer fails with the already-connected error and changes
    nothing; a dialer error leaves the client as it was. *)
Theorem connection_lifecycle c arg nowBody nowHeader writeErr dialErr err :
  Disconnect (Disconnect c).1 = ((Disconnect c).1, None)
  ∧ messageSequenceNum (Disconnect c).1 = messageSequenceNum c
  ∧ conn (Disconnect c).1 = conn c
  ∧ Send (Disconnect c).1 arg nowBody nowHeader writeErr
    = ((Disconnect c).1, Some (lit "client is not connected"))
  ∧ Connect (Connect c None).1 dialErr
    = ((Connect c None).1, Some (lit "client is already connected"))
  ∧ (Connect c (Some err)).1 = c
  ∧ (Connect c (Some err)).2 ≠ None.
Proof.
  unfold Disconnect, Connect, Send.
  destruct c as [h p s d w n [|]]; cbn; repeat split; done.
Qed.

(** X20: the sequence number a receiver reads.  After a successful
    [Connect] of a client with the default delimiter and N sends with
    successful writes, the text of rank k on the socket, decoded, carries
    under tag 34 the decimal text of k alone, which [Atoi] reads back as k,
    provided the texts of that message do not hold the delimiter. *)
Theorem sent_message_carries_its_rank
    c (reqs : list (Message * Time * Time)) (k : nat) mt cfg v nowBody nowHeader :
  isConnected c = false → c_delimiter c = [SOH] →
  Z.of_nat (length reqs) < 2 ^ 63 →
  reqs !! k = Some (message mt cfg v, nowBody, nowHeader) →
  delimiterFree (message mt cfg v) →
  ∃ wire,
    conn (sendAll (Connect c None).1 reqs).1 !! k = Some wire
    ∧ GetFieldValue (NewResponseMessage wire [SOH]) 34 = OneValue (itoa (Z.of_nat k + 1))
    ∧ Atoi (itoa (Z.of_nat k + 1)) = Some (Z.of_nat k + 1).
Proof.
  intros Hc Hd Hlen Hk Hfree.
  destruct (sendAll_after_Connect c reqs Hc Hlen) as (_ & _ & _ & _ & Hconn).
  exists (GetMessage (message mt cfg v) (Z.of_nat k + 1) nowBody nowHeader).
  pose proof (lookup_lt_Some _ _ _ Hk) as Hklen.
  split; [|split].
  - rewrite Hconn, list_lookup_imap, Hk. cbn. f_equal. by apply wireOf_default.
  - unfold GetFieldValue. rewrite NewResponseMessage_fields.
    rewrite (decoded_value mt cfg v _ _ _ 34 (itoa (Z.of_nat k + 1))); [done|done|].
    unfold wireFields, writtenFields, headerPairs. cbn [app In].
    do 7 right. by left.
  - apply Atoi_itoa. lia.
Qed.

Lemma sent_message_carries_its_rank_witness :
  (isConnected (NewClient [] 0) = false
   ∧ c_delimiter (NewClient [] 0) = [SOH]
   ∧ Z.of_nat (length [ (message (lit "A") sampleConfig (LogonRequest 0 true),
                         sampleTime, sampleTime);
                        (message (lit "0") sampleConfig (Heartbeat []),
                         sampleTime, sampleTime) ]) < 2 ^ 63
   ∧ [ (message (lit "A") sampleConfig (LogonRequest 0 true), sampleTime, sampleTime);
       (message (lit "0") sampleConfig (Heartbeat []), sampleTime, sampleTime) ] !! 1%nat
     = Some (message (lit "0") sampleConfig (Heartbeat []), sampleTime, sampleTime)
   ∧ delimiterFree (message (lit "0") sampleConfig (Heartbeat [])))
  ∧ ∃ wire,
      conn (sendAll (Connect (NewClient [] 0) None).1
              [ (message (lit "A") sampleConfig (LogonRequest 0 true),
                 sampleTime, sampleTime);
                (message (lit "0") sampleConfig (Heartbeat []),
                 sampleTime, sampleTime) ]).1 !! 1%nat = Some wire
      ∧ GetFieldValue (NewResponseMessage wire [SOH]) 34
        = OneValue (itoa (Z.of_nat 1 + 1))
      ∧ Atoi (itoa (Z.of_nat 1 + 1)) = Some (Z.of_nat 1 + 1).
Proof.
  assert (isConnected (NewClient [] 0) = false) as Hc by reflexivity.
  assert (c_delimiter (NewClient [] 0) = [SOH]) as Hd by reflexivity.
  assert (Z.of_nat (length [ (message (lit "A") sampleConfig (LogonRequest 0 true),
                              sampleTime, sampleTime);
                             (message (lit "0") sampleConfig (Heartbeat []),
                              sampleTime, sampleTime) ]) < 2 ^ 63) as Hlen
    by (simpl; lia).
  assert ([ (message (lit "A") sampleConfig (LogonRequest 0 true), sampleTime, sampleTime);
            (message (lit "0") sampleConfig (Heartbeat []), sampleTime, sampleTime) ]
            !! 1%nat
          = Some (message (lit "0") sampleConfig (Heartbeat []), sampleTime, sampleTime))
    as Hk by reflexivity.
  assert (delimiterFree (message (lit "0") sampleConfig (Heartbeat []))) as Hfree.
  { unfold delimiterFree. cbn.
    repeat (constructor; [by apply (bool_decide_unpack _)|]). constructor. }
  split; [exact (conj Hc (conj Hd (conj Hlen (conj Hk Hfree))))|].
  exact (sent_message_carries_its_rank _ _ 1 _ _ _ _ _ Hc Hd Hlen Hk Hfree).
Defined.

End SessionEdges.

(** ** The decoded message: its text, its values, its invariants *)

Section Decoded.

Lemma map_absent d x (s : bytes) :
  d ∉ s → map (fun c => if Ascii.eqb c d then x else c) s = s.
Proof.
  induction s as [|c s IH]; intros Hd; [done|].
  apply not_elem_of_cons in Hd as [Hcd Hs]. simpl.
  assert (Ascii.eqb c d = false) as -> by (apply Ascii.eqb_neq; congruence).
  by rewrite IH.
Qed.

Lemma replaceRounds_single d x n (s : bytes) :
  (length s ≤ n)%nat →
  replaceRounds n s [d] [x] = map (fun c => if Ascii.eqb c d then x else c) s.
Proof.
  revert s. induction n as [|n IH]; intros s Hn.
  - destruct s; [done|simpl in Hn; lia].
  - cbn [replaceRounds]. unfold Index.
    destruct (first_occurrence d s) as [Hs|(a & b & -> & Ha)].
    + rewrite IndexFrom_absent by done. cbn. by rewrite map_absent.
    + rewrite IndexFrom_first by done.
      assert ((0 + len a <? 0) = false) as -> by (apply Z.ltb_ge; unfold len; lia).
      unfold sliceTo, sliceFrom, len. simpl length.
      replace (Z.to_nat (0 + Z.of_nat (length a))) with (length a) by lia.
      replace (Z.to_nat (0 + Z.of_nat (length a) + Z.of_nat 1))
        with (length a + 1)%nat by lia.
      rewrite take_app_length, <- drop_drop, drop_app_length. simpl drop.
      assert (length b ≤ n)%nat as Hb by (rewrite length_app in Hn; simpl in Hn; lia).
      rewrite drop_0, (IH b Hb), map_app, (map_absent d x a Ha).
      simpl. by rewrite Ascii.eqb_refl.
Qed.

(** X21: the display text of a decoded message.  For a one-byte delimiter,
    the text that [NewResponseMessage] keeps is the message with every
    delimiter byte turned into [|] and every other byte as it was, so it
    has the length of the message. *)
Theorem NewResponseMessage_text (message : bytes) (d : ascii) :
  resp_message (NewResponseMessage message [d])
  = map (fun c => if Ascii.eqb c d then "|"%char else c) message
  ∧ length (resp_message (NewResponseMessage message [d])) = length message.
Proof.
  assert (resp_message (NewResponseMessage message [d])
          = map (fun c => if Ascii.eqb c d then "|"%char else c) message) as H.
  { cbn [NewResponseMessage resp_message ReplaceAll].
    by apply (replaceRounds_single d "|"%char). }
  split; [exact H|]. by rewrite H, length_map.
Qed.

(** X22: repeated tags.  For a list of fields whose tags fit a Go [int] and
    whose values do not hold the delimiter, [GetFieldValue] on the decoded
    text returns [nil] for a tag with no field, the value itself for a tag
    with one field, and for a tag with several fields the list of all its
    values in the order of the text. *)
Theorem GetFieldValue_of_encoded_fields (fields : list (Z * bytes)) (tag : Z) :
  Forall (fun f => - 2 ^ 63 <= f.1 < 2 ^ 63 ∧ SOH ∉ f.2) fields →
  GetFieldValue (NewResponseMessage (delimited SOH (map encodeField fields)) [SOH]) tag
  = match valuesOf tag fields with
    | [] => NoValue
    | [value] => OneValue value
    | values => Values values
    end.
Proof.
  intros Hall. unfold GetFieldValue.
  rewrite NewResponseMessage_fields, decode_encoded by done. unfold grouped.
  by destruct (valuesOf tag fields) as [|v1 [|v2 vs]].
Qed.

Lemma GetFieldValue_of_encoded_fields_witness :
  Forall (fun f : Z * bytes => - 2 ^ 63 <= f.1 < 2 ^ 63 ∧ SOH ∉ f.2)
    [ (268, lit "2"); (269, lit "0"); (270, lit "1.1"); (269, lit "1") ]
  ∧ GetFieldValue
      (NewResponseMessage
         (delimited SOH (map encodeField
            [ (268, lit "2"); (269, lit "0"); (270, lit "1.1"); (269, lit "1") ]))
         [SOH]) 269
    = Values [ lit "0"; lit "1" ].
Proof.
  assert (Forall (fun f : Z * bytes => - 2 ^ 63 <= f.1 < 2 ^ 63 ∧ SOH ∉ f.2)
            [ (268, lit "2"); (269, lit "0"); (270, lit "1.1"); (269, lit "1") ]) as Hall.
  { repeat (constructor;
            [split; [simpl; lia|by apply (bool_decide_unpack _); vm_compute]|]).
    constructor. }
  split; [exact Hall|].
  exact (GetFieldValue_of_encoded_fields _ 269 Hall).
Defined.

Lemma Atoi_range s v : Atoi s = Some v → - 2 ^ 63 <= v < 2 ^ 63.
Proof.
  unfold Atoi.
  destruct (match s with
            | [] => (false, s)
            | c :: r => if Ascii.eqb c "+" then (false, r)
                        else if Ascii.eqb c "-" then (true, r) else (false, s)
            end) as [neg ds].
  destruct ds as [|c ds]; [done|].
  destruct (parseDigits 0 (c :: ds)) as [n|]; [|done].
  destruct ((- 2 ^ 63 <=? (if neg then - n else n)) && ((if neg then - n else n) <? 2 ^ 63))
    eqn:E; [|done].
  intros [= <-]. apply andb_prop in E as [E1 E2].
  apply Z.leb_le in E1. apply Z.ltb_lt in E2. lia.
Qed.

Lemma parsePart_invariant (fields : gmap Z (list bytes)) part :
  (∀ tag vs, fields !! tag = Some vs → vs ≠ [] ∧ - 2 ^ 63 <= tag < 2 ^ 63) →
  ∀ tag vs, parsePart fields part !! tag = Some vs → vs ≠ [] ∧ - 2 ^ 63 <= tag < 2 ^ 63.
Proof.
  intros Hinv tag vs. unfold parsePart.
  case_bool_decide; [apply Hinv|]. case_bool_decide; [|apply Hinv].
  destruct (Atoi _) as [fieldNum|] eqn:Hatoi; [|apply Hinv].
  destruct (decide (fieldNum = tag)) as [->|Hne].
  - rewrite lookup_insert_eq. intros [= <-]. split.
    + by destruct (default [] (fields !! tag)).
    + by apply Atoi_range in Hatoi.
  - rewrite lookup_insert_ne by done. apply Hinv.
Qed.

(** X23: what the decoded mapping never holds.  Whatever the text and the
    delimiter, a tag present in the result of [parseFields] has at least
    one value and lies in the range of a Go [int]: presence of a key means
    presence of a value. *)
Theorem parseFields_keys_have_values p (message : bytes) (tag : Z) vs :
  parseFields p message !! tag = Some vs →
  vs ≠ [] ∧ - 2 ^ 63 <= tag < 2 ^ 63.
Proof.
  unfold parseFields. revert tag vs.
  generalize (Split message (p_delimiter p)). intros parts.
  assert (∀ (init : gmap Z (list bytes)),
            (∀ tag vs, init !! tag = Some vs → vs ≠ [] ∧ - 2 ^ 63 <= tag < 2 ^ 63) →
            ∀ tag vs, fold_left parsePart parts init !! tag = Some vs →
                      vs ≠ [] ∧ - 2 ^ 63 <= tag < 2 ^ 63) as Hfold.
  { induction parts as [|part parts IH]; intros init Hinv; [exact Hinv|].
    cbn [fold_left]. apply IH. by apply parsePart_invariant. }
  apply Hfold. intros tag vs. by rewrite lookup_empty.
Qed.

Lemma parseFields_keys_witness :
  parseFields (NewProtocol [SOH]) headlessMessage !! 35 = Some [ lit "A" ]
  ∧ [ lit "A" ] ≠ [] ∧ - 2 ^ 63 <= 35 < 2 ^ 63.
Proof.
  assert (parseFields (NewProtocol [SOH]) headlessMessage !! 35 = Some [ lit "A" ]) as H
    by (vm_compute; reflexivity).
  split; [exact H|].
  exact (parseFields_keys_have_values _ _ 35 _ H).
Defined.

End Decoded.
